(** * NicheJobs: the filter engine and the saved-job reconciler

    A shallow embedding of the state logic of [src/App.tsx] and
    [src/components/JobBoard.tsx]:

    - [JS]: the fragment of the JavaScript built-ins the two files call
      ([toLowerCase], [includes], [parseInt], [JSON.parse], truthiness);
    - [Job], [SavedJob]: the two interfaces exported by [App.tsx];
    - [JobBoard]: the five filter states, [filteredJobs], [clearFilters],
      [isJobSaved];
    - [Unicode]: the search test of [filteredJobs] on strings of any code
      units, with the context-sensitive [toLowerCase];
    - [App]: [loadJobs], [loadSavedJobs] and [handleSaveJob], each split at
      its [await] into the part that runs before the store call and the part
      that runs when the call settles.

    Strings are sequences of UTF-16 code units; the model keeps the code
    units below 256 (one [ascii] each), on which [toLowerCase] is the
    character-wise map below.  Numbers are the integral doubles and [NaN]. *)

From Stdlib Require Import List String Ascii ZArith NArith Bool Lia.
From Stdlib Require Import Sorted Permutation OrderedTypeEx DecimalString.
Import ListNotations.

Local Open Scope string_scope.
Local Open Scope bool_scope.

(* ------------------------------------------------------------------ *)
(** ** JavaScript built-ins used by the sources                        *)
(* ------------------------------------------------------------------ *)

Module JS.

(** [s ? a : b], [!s], [s || d] on a string: the empty string is falsy. *)
Definition truthy (s : string) : bool :=
  match s with
  | EmptyString => false
  | String _ _ => true
  end.

(** A number: an integral value or [NaN]. *)
Inductive number : Type :=
| NaN
| Num (z : Z).

(** Truthiness of a number: [0] and [NaN] are falsy. *)
Definition truthy_number (n : number) : bool :=
  match n with
  | NaN => false
  | Num z => negb (z =? 0)%Z
  end.

(** [a >= b]: false as soon as one side is [NaN]. *)
Definition ge (a b : number) : bool :=
  match a, b with
  | Num x, Num y => (y <=? x)%Z
  | _, _ => false
  end.

(** [String.prototype.toLowerCase] on one code unit below 256:
    [A-Z] and the Latin-1 capitals U+00C0..U+00DE (U+00D7 excepted)
    move up by 32.  On strings with code units from 256 on the platform's
    function looks at the context of a character; see [Unicode]. *)
Definition toLowerCase_char (c : ascii) : ascii :=
  let n := N_of_ascii c in
  if ((65 <=? n) && (n <=? 90) ||
      (192 <=? n) && (n <=? 222) && negb (n =? 215))%N
  then ascii_of_N (n + 32)
  else c.

Fixpoint toLowerCase (s : string) : string :=
  match s with
  | EmptyString => EmptyString
  | String c s' => String (toLowerCase_char c) (toLowerCase s')
  end.

(** [s.includes(q)]: [q] occurs in [s] at some position. *)
Fixpoint includes (s q : string) : bool :=
  prefix q s ||
  match s with
  | EmptyString => false
  | String _ s' => includes s' q
  end.

(** White space skipped by [parseInt] (code units below 256). *)
Definition isWhiteSpace (c : ascii) : bool :=
  let n := N_of_ascii c in
  ((9 <=? n) && (n <=? 13) || (n =? 32) || (n =? 160))%N.

Fixpoint trimStart (s : string) : string :=
  match s with
  | EmptyString => EmptyString
  | String c s' => if isWhiteSpace c then trimStart s' else s
  end.

(** Value of a digit in a radix up to 36. *)
Definition digitValue (c : ascii) : option Z :=
  let n := Z.of_N (N_of_ascii c) in
  if ((48 <=? n) && (n <=? 57))%Z then Some (n - 48)%Z
  else if ((97 <=? n) && (n <=? 122))%Z then Some (n - 87)%Z
  else if ((65 <=? n) && (n <=? 90))%Z then Some (n - 55)%Z
  else None.

(** The longest prefix of radix-[R] digits, as a number; [None] when the
    prefix is empty. *)
Fixpoint parseDigits (R : Z) (acc : option Z) (s : string) : option Z :=
  match s with
  | EmptyString => acc
  | String c s' =>
      match digitValue c with
      | Some d =>
          if (d <? R)%Z
          then parseDigits R
                 (Some (R * match acc with Some a => a | None => 0 end + d)%Z) s'
          else acc
      | None => acc
      end
  end.

(** [parseInt(str)] with no radix argument: leading white space, a sign,
    a [0x]/[0X] prefix selecting radix 16, then the longest digit prefix;
    [NaN] when there is none.  The value is the exact integer, which is
    the platform's result up to 2^53; beyond, the platform rounds to the
    nearest double. *)
Definition parseInt (str : string) : number :=
  let S0 := trimStart str in
  let '(sign, S1) :=
    match S0 with
    | String "-" r => ((-1)%Z, r)
    | String "+" r => (1%Z, r)
    | _ => (1%Z, S0)
    end in
  let '(R, S2) :=
    match S1 with
    | String "0" (String "x" r) => (16%Z, r)
    | String "0" (String "X" r) => (16%Z, r)
    | _ => (10%Z, S1)
    end in
  match parseDigits R None S2 with
  | None => NaN
  | Some m => Num (sign * m)
  end.

(** [String.prototype.trim]: the white space of both ends goes. *)
Fixpoint trimEnd (s : string) : string :=
  match s with
  | EmptyString => EmptyString
  | String c s' =>
      match trimEnd s' with
      | EmptyString => if isWhiteSpace c then EmptyString else String c EmptyString
      | r => String c r
      end
  end.

Definition trim (s : string) : string := trimEnd (trimStart s).

(** [arr.includes(x)] on an array of strings. *)
Definition arrayIncludes (arr : list string) (x : string) : bool :=
  existsb (fun y => y =? x) arr.

(** [[...new Set(xs)]]: each string once, in the order of first occurrence. *)
Definition setAdd (seen : list string) (x : string) : list string :=
  if arrayIncludes seen x then seen else (seen ++ [x])%list.

Definition uniq (xs : list string) : list string := fold_left setAdd xs [].

(** [xs.sort()] on strings: ascending by code units, equal elements in
    their order. *)
Fixpoint insert (x : string) (sorted : list string) : list string :=
  match sorted with
  | [] => [x]
  | y :: rest => if (x <=? y) then x :: sorted else y :: insert x rest
  end.

Definition sort (xs : list string) : list string := fold_right insert [] xs.

End JS.

(* ------------------------------------------------------------------ *)
(** ** The interfaces of [App.tsx]                                     *)
(* ------------------------------------------------------------------ *)

Module Job.

Inductive ApplicationType : Type := email | link.

(** [interface Job]; [TAGS] is [list string] in the declared interface
    and whatever [JSON.parse] returned in a freshly loaded record. *)
Record t (TAGS : Type) : Type := mk {
  id : string;
  title : string;
  company : string;
  location : string;
  salaryMin : option JS.number;
  salaryMax : option JS.number;
  salaryCurrency : string;
  description : string;
  requirements : option string;
  benefits : option string;
  employmentType : string;
  experienceLevel : string;
  applicationType : ApplicationType;
  applicationEmail : option string;
  applicationLink : option string;
  tags : TAGS;
  userId : string;
  createdAt : string;
  updatedAt : string
}.

Arguments mk {TAGS}.
Arguments id {TAGS}.
Arguments title {TAGS}.
Arguments company {TAGS}.
Arguments location {TAGS}.
Arguments salaryMin {TAGS}.
Arguments salaryMax {TAGS}.
Arguments salaryCurrency {TAGS}.
Arguments description {TAGS}.
Arguments requirements {TAGS}.
Arguments benefits {TAGS}.
Arguments employmentType {TAGS}.
Arguments experienceLevel {TAGS}.
Arguments applicationType {TAGS}.
Arguments applicationEmail {TAGS}.
Arguments applicationLink {TAGS}.
Arguments tags {TAGS}.
Arguments userId {TAGS}.
Arguments createdAt {TAGS}.
Arguments updatedAt {TAGS}.

End Job.

(** The declared [Job]: [tags: string[]]. *)
Definition Job : Type := Job.t (list string).

Module SavedJob.

(** [interface SavedJob]. *)
Record t : Type := mk {
  id : string;
  jobId : string;
  userId : string;
  createdAt : string
}.

End SavedJob.

Definition SavedJob : Type := SavedJob.t.

(* ------------------------------------------------------------------ *)
(** ** [JobBoard.tsx]: the filter engine                               *)
(* ------------------------------------------------------------------ *)

Module JobBoard.

(** The five [useState('')] cells of the component. *)
Record FilterState : Type := mkFilters {
  searchQuery : string;
  locationFilter : string;
  employmentTypeFilter : string;
  experienceLevelFilter : string;
  salaryMinFilter : string
}.

(** The state right after mount. *)
Definition initialFilters : FilterState := mkFilters "" "" "" "" "".

Definition matchesSearch (searchQuery : string) (job : Job) : bool :=
  negb (JS.truthy searchQuery) ||
  JS.includes (JS.toLowerCase (Job.title job)) (JS.toLowerCase searchQuery) ||
  JS.includes (JS.toLowerCase (Job.company job)) (JS.toLowerCase searchQuery) ||
  JS.includes (JS.toLowerCase (Job.description job)) (JS.toLowerCase searchQuery) ||
  existsb (fun tag => JS.includes (JS.toLowerCase tag) (JS.toLowerCase searchQuery))
          (Job.tags job).

Definition matchesLocation (locationFilter : string) (job : Job) : bool :=
  negb (JS.truthy locationFilter) || (Job.location job =? locationFilter).

Definition matchesEmploymentType (employmentTypeFilter : string) (job : Job) : bool :=
  negb (JS.truthy employmentTypeFilter) ||
  (Job.employmentType job =? employmentTypeFilter).

Definition matchesExperienceLevel (experienceLevelFilter : string) (job : Job) : bool :=
  negb (JS.truthy experienceLevelFilter) ||
  (Job.experienceLevel job =? experienceLevelFilter).

(** [!salaryMinFilter || (job.salaryMin && job.salaryMin >= parseInt(...))],
    read as the boolean [filter] makes of it. *)
Definition matchesSalary (salaryMinFilter : string) (job : Job) : bool :=
  negb (JS.truthy salaryMinFilter) ||
  match Job.salaryMin job with
  | None => false
  | Some m => JS.truthy_number m && JS.ge m (JS.parseInt salaryMinFilter)
  end.

Definition passes (fs : FilterState) (job : Job) : bool :=
  matchesSearch (searchQuery fs) job &&
  matchesLocation (locationFilter fs) job &&
  matchesEmploymentType (employmentTypeFilter fs) job &&
  matchesExperienceLevel (experienceLevelFilter fs) job &&
  matchesSalary (salaryMinFilter fs) job.

Definition filteredJobs (jobs : list Job) (fs : FilterState) : list Job :=
  filter (passes fs) jobs.

(** The five setters, in one batch. *)
Definition clearFilters (fs : FilterState) : FilterState :=
  let fs := mkFilters "" (locationFilter fs) (employmentTypeFilter fs)
              (experienceLevelFilter fs) (salaryMinFilter fs) in
  let fs := mkFilters (searchQuery fs) "" (employmentTypeFilter fs)
              (experienceLevelFilter fs) (salaryMinFilter fs) in
  let fs := mkFilters (searchQuery fs) (locationFilter fs) ""
              (experienceLevelFilter fs) (salaryMinFilter fs) in
  let fs := mkFilters (searchQuery fs) (locationFilter fs)
              (employmentTypeFilter fs) "" (salaryMinFilter fs) in
  mkFilters (searchQuery fs) (locationFilter fs) (employmentTypeFilter fs)
    (experienceLevelFilter fs) "".

(** What the user can do to the filter state: type in the search box,
    pick a value in one of the four selects, press "Clear Filters". *)
Inductive FilterEvent : Type :=
| SetSearchQuery (v : string)
| SetLocationFilter (v : string)
| SetEmploymentTypeFilter (v : string)
| SetExperienceLevelFilter (v : string)
| SetSalaryMinFilter (v : string)
| ClearFilters.

Definition onEvent (fs : FilterState) (e : FilterEvent) : FilterState :=
  match e with
  | SetSearchQuery v =>
      mkFilters v (locationFilter fs) (employmentTypeFilter fs)
        (experienceLevelFilter fs) (salaryMinFilter fs)
  | SetLocationFilter v =>
      mkFilters (searchQuery fs) v (employmentTypeFilter fs)
        (experienceLevelFilter fs) (salaryMinFilter fs)
  | SetEmploymentTypeFilter v =>
      mkFilters (searchQuery fs) (locationFilter fs) v
        (experienceLevelFilter fs) (salaryMinFilter fs)
  | SetExperienceLevelFilter v =>
      mkFilters (searchQuery fs) (locationFilter fs) (employmentTypeFilter fs)
        v (salaryMinFilter fs)
  | SetSalaryMinFilter v =>
      mkFilters (searchQuery fs) (locationFilter fs) (employmentTypeFilter fs)
        (experienceLevelFilter fs) v
  | ClearFilters => clearFilters fs
  end.

Definition onEvents (fs : FilterState) (es : list FilterEvent) : FilterState :=
  fold_left onEvent es fs.

Definition isJobSaved (savedJobs : list SavedJob) (jobId : string) : bool :=
  existsb (fun save => SavedJob.jobId save =? jobId) savedJobs.


(** The three lists that fill the selects. *)
Definition locations (jobs : list Job) : list string :=
  JS.sort (JS.uniq (map Job.location jobs)).

Definition employmentTypes (jobs : list Job) : list string :=
  JS.sort (JS.uniq (map Job.employmentType jobs)).

Definition experienceLevels (jobs : list Job) : list string :=
  JS.sort (JS.uniq (map Job.experienceLevel jobs)).

(** The badges of a card: [job.tags.slice(0, 4)], and the count behind
    the "+n more" badge when there are more than four tags. *)
Definition shownTags (job : Job) : list string := firstn 4 (Job.tags job).

Definition moreTags (job : Job) : option nat :=
  if Nat.ltb 4 (List.length (Job.tags job))
  then Some (List.length (Job.tags job) - 4)
  else None.

End JobBoard.

(* ------------------------------------------------------------------ *)
(** ** [JSON.parse]                                                    *)
(* ------------------------------------------------------------------ *)

Module JSON.

(** A parsed JSON text.  Strings keep all their code units (an escape
    [\uXXXX] may denote one above 255); numbers keep their lexeme;
    objects keep their members in source order. *)
#[warnings="-register-all"]
Inductive value : Type :=
| Null
| Bool (b : bool)
| Number (lexeme : string)
| Str (units : list N)
| Array (items : list value)
| Object (members : list (list N * value)).

Inductive token : Type :=
| LBrace | RBrace | LBracket | RBracket | Colon | Comma
| TString (units : list N)
| TNumber (lexeme : string)
| TTrue | TFalse | TNull.

(** *** Lexer: one code unit at a time *)

Inductive mode : Type :=
| Plain
| InString (acc : list N)
| Escape (acc : list N)
| Unicode (acc : list N) (hex : list N)
| InNumber (acc : string)
| InWord (acc : string).

(** The code unit U+0022. *)
Definition quote : ascii := "034"%char.

Definition isDigit (c : ascii) : bool :=
  let n := N_of_ascii c in ((48 <=? n) && (n <=? 57))%N.

Definition isLetter (c : ascii) : bool :=
  let n := N_of_ascii c in ((97 <=? n) && (n <=? 122))%N.

Definition isNumberChar (c : ascii) : bool :=
  isDigit c || Ascii.eqb c "-" || Ascii.eqb c "+" || Ascii.eqb c "." ||
  Ascii.eqb c "e" || Ascii.eqb c "E".

Definition isJsonSpace (c : ascii) : bool :=
  let n := N_of_ascii c in ((n =? 32) || (n =? 9) || (n =? 10) || (n =? 13))%N.

Definition hexValue (c : ascii) : option N :=
  let n := N_of_ascii c in
  if ((48 <=? n) && (n <=? 57))%N then Some (n - 48)%N
  else if ((97 <=? n) && (n <=? 102))%N then Some (n - 87)%N
  else if ((65 <=? n) && (n <=? 70))%N then Some (n - 55)%N
  else None.

Fixpoint skipDigits (s : string) : string :=
  match s with
  | EmptyString => EmptyString
  | String c s' => if isDigit c then skipDigits s' else s
  end.

(** [exp]: nothing, or [e]/[E], an optional sign and one digit at least. *)
Definition validExponent (s : string) : bool :=
  match s with
  | EmptyString => true
  | String e r =>
      (Ascii.eqb e "e" || Ascii.eqb e "E") &&
      let r1 := match r with
                | String "+" x => x
                | String "-" x => x
                | _ => r
                end in
      match r1 with
      | EmptyString => false
      | String d r2 => isDigit d && (skipDigits r2 =? "")
      end
  end.

(** [frac exp]: an optional [.] followed by one digit at least. *)
Definition validFraction (s : string) : bool :=
  match s with
  | String "." r =>
      match r with
      | EmptyString => false
      | String d r1 => isDigit d && validExponent (skipDigits r1)
      end
  | _ => validExponent s
  end.

(** An optional minus sign, then [0] or a digit string not starting with
    [0], then the optional fraction and exponent. *)
Definition validNumber (s : string) : bool :=
  let s1 := match s with String "-" r => r | _ => s end in
  match s1 with
  | EmptyString => false
  | String "0" r => validFraction r
  | String c r => isDigit c && validFraction (skipDigits r)
  end.

Definition numberToken (acc : string) : option token :=
  if validNumber acc then Some (TNumber acc) else None.

Definition wordToken (acc : string) : option token :=
  if acc =? "true" then Some TTrue
  else if acc =? "false" then Some TFalse
  else if acc =? "null" then Some TNull
  else None.

Definition snoc (s : string) (c : ascii) : string := s ++ String c "".

(** A code unit met between tokens. *)
Definition stepPlain (c : ascii) : option (mode * list token) :=
  if isJsonSpace c then Some (Plain, [])
  else if Ascii.eqb c "{" then Some (Plain, [LBrace])
  else if Ascii.eqb c "}" then Some (Plain, [RBrace])
  else if Ascii.eqb c "[" then Some (Plain, [LBracket])
  else if Ascii.eqb c "]" then Some (Plain, [RBracket])
  else if Ascii.eqb c ":" then Some (Plain, [Colon])
  else if Ascii.eqb c "," then Some (Plain, [Comma])
  else if Ascii.eqb c quote then Some (InString [], [])
  else if isDigit c || Ascii.eqb c "-" then Some (InNumber (String c ""), [])
  else if isLetter c then Some (InWord (String c ""), [])
  else None.

(** After a finished number or word, the code unit that ended it is read
    again as one between tokens. *)
Definition emitThen (t : option token) (c : ascii) : option (mode * list token) :=
  match t, stepPlain c with
  | Some tok, Some (m, toks) => Some (m, tok :: toks)
  | _, _ => None
  end.

Definition step (m : mode) (c : ascii) : option (mode * list token) :=
  match m with
  | Plain => stepPlain c
  | InString acc =>
      if Ascii.eqb c quote then Some (Plain, [TString acc])
      else if Ascii.eqb c "\" then Some (Escape acc, [])
      else if (N_of_ascii c <? 32)%N then None
      else Some (InString (acc ++ [N_of_ascii c]), [])
  | Escape acc =>
      let plain (u : N) := Some (InString (acc ++ [u]), []) in
      if Ascii.eqb c quote then plain 34%N
      else if Ascii.eqb c "\" then plain 92%N
      else if Ascii.eqb c "/" then plain 47%N
      else if Ascii.eqb c "b" then plain 8%N
      else if Ascii.eqb c "f" then plain 12%N
      else if Ascii.eqb c "n" then plain 10%N
      else if Ascii.eqb c "r" then plain 13%N
      else if Ascii.eqb c "t" then plain 9%N
      else if Ascii.eqb c "u" then Some (Unicode acc [], [])
      else None
  | Unicode acc hex =>
      match hexValue c with
      | None => None
      | Some d =>
          match hex with
          | [h1; h2; h3] =>
              Some (InString (acc ++ [((h1 * 16 + h2) * 16 + h3) * 16 + d]%N), [])
          | _ => Some (Unicode acc (hex ++ [d]), [])
          end
      end
  | InNumber acc =>
      if isNumberChar c then Some (InNumber (snoc acc c), [])
      else emitThen (numberToken acc) c
  | InWord acc =>
      if isLetter c then Some (InWord (snoc acc c), [])
      else emitThen (wordToken acc) c
  end.

(** End of the text. *)
Definition finish (m : mode) : option (list token) :=
  match m with
  | Plain => Some []
  | InNumber acc => option_map (fun t => [t]) (numberToken acc)
  | InWord acc => option_map (fun t => [t]) (wordToken acc)
  | InString _ | Escape _ | Unicode _ _ => None
  end.

Fixpoint lex (m : mode) (s : string) : option (list token) :=
  match s with
  | EmptyString => finish m
  | String c s' =>
      match step m c with
      | None => None
      | Some (m', toks) => option_map (app toks) (lex m' s')
      end
  end.

(** *** Parser: a stack of the containers still open *)

Inductive frame : Type :=
| FArray (items : list value)
| FObject (members : list (list N * value)) (key : list N).

Inductive state : Type :=
| PValue (stack : list frame)
| PArrayOpen (stack : list frame)
| PObjectOpen (stack : list frame)
| PKey (members : list (list N * value)) (stack : list frame)
| PColon (members : list (list N * value)) (key : list N) (stack : list frame)
| PAfterItem (items : list value) (stack : list frame)
| PAfterMember (members : list (list N * value)) (stack : list frame)
| PDone (v : value).

(** A finished value goes to the innermost open container. *)
Definition deliver (v : value) (stack : list frame) : state :=
  match stack with
  | [] => PDone v
  | FArray items :: st => PAfterItem (items ++ [v]) st
  | FObject members key :: st => PAfterMember (members ++ [(key, v)]) st
  end.

Definition startValue (t : token) (stack : list frame) : option state :=
  match t with
  | TNull => Some (deliver Null stack)
  | TTrue => Some (deliver (Bool true) stack)
  | TFalse => Some (deliver (Bool false) stack)
  | TNumber n => Some (deliver (Number n) stack)
  | TString u => Some (deliver (Str u) stack)
  | LBracket => Some (PArrayOpen stack)
  | LBrace => Some (PObjectOpen stack)
  | RBrace | RBracket | Colon | Comma => None
  end.

Definition feed (p : state) (t : token) : option state :=
  match p, t with
  | PValue st, _ => startValue t st
  | PArrayOpen st, RBracket => Some (deliver (Array []) st)
  | PArrayOpen st, _ => startValue t (FArray [] :: st)
  | PObjectOpen st, RBrace => Some (deliver (Object []) st)
  | PObjectOpen st, TString k => Some (PColon [] k st)
  | PKey members st, TString k => Some (PColon members k st)
  | PColon members k st, Colon => Some (PValue (FObject members k :: st))
  | PAfterItem items st, Comma => Some (PValue (FArray items :: st))
  | PAfterItem items st, RBracket => Some (deliver (Array items) st)
  | PAfterMember members st, Comma => Some (PKey members st)
  | PAfterMember members st, RBrace => Some (deliver (Object members) st)
  | _, _ => None
  end.

Fixpoint feedAll (p : state) (ts : list token) : option state :=
  match ts with
  | [] => Some p
  | t :: ts' =>
      match feed p t with
      | None => None
      | Some p' => feedAll p' ts'
      end
  end.

(** [JSON.parse(text)]: [None] stands for the [SyntaxError] it throws. *)
Definition parse (text : string) : option value :=
  match lex Plain text with
  | None => None
  | Some ts =>
      match feedAll (PValue []) ts with
      | Some (PDone v) => Some v
      | _ => None
      end
  end.

(** *** [JSON.stringify] on an array of strings *)

Definition hexDigit (n : N) : ascii :=
  if (n <? 10)%N then ascii_of_N (48 + n) else ascii_of_N (87 + n).

(** One code unit inside the quotes: the short escapes, [\u00xx] for the
    other control characters, the code unit itself otherwise. *)
Definition quoteChar (c : ascii) : string :=
  let n := N_of_ascii c in
  if (n =? 8)%N then "\b"
  else if (n =? 9)%N then "\t"
  else if (n =? 10)%N then "\n"
  else if (n =? 12)%N then "\f"
  else if (n =? 13)%N then "\r"
  else if Ascii.eqb c quote then String "\" (String quote "")
  else if Ascii.eqb c "\" then "\\"
  else if (n <? 32)%N
       then "\u00" ++ String (hexDigit (n / 16)) (String (hexDigit (n mod 16)) "")
  else String c "".

Fixpoint quoteBody (s : string) : string :=
  match s with
  | EmptyString => EmptyString
  | String c s' => quoteChar c ++ quoteBody s'
  end.

Definition quoteJSONString (s : string) : string :=
  String quote (quoteBody s ++ String quote "").

(** [JSON.stringify(tags)] for [tags: string[]]. *)
Definition stringify (tags : list string) : string :=
  "[" ++ String.concat "," (map quoteJSONString tags) ++ "]".

(** The code units of a string. *)
Definition units (s : string) : list N := map N_of_ascii (list_ascii_of_string s).

End JSON.

(* ------------------------------------------------------------------ *)
(** ** The search test on strings of any code units                    *)
(* ------------------------------------------------------------------ *)

Module Unicode.

(** A string as the platform has it: a sequence of UTF-16 code units. *)
Definition ustring : Type := list N.

(** What lower-casing reads in the Unicode character database: the simple
    lower-case mapping and the properties Cased and Case_Ignorable. *)
Record Tables : Type := mkTables {
  simpleLower : N -> N;
  cased : N -> bool;
  caseIgnorable : N -> bool
}.

Section LowerCase.

Variable T : Tables.

(** Going back from a character: a cased letter, with nothing but
    case-ignorable characters in between. *)
Fixpoint casedBefore (rev_before : list N) : bool :=
  match rev_before with
  | [] => false
  | c :: r => cased T c || caseIgnorable T c && casedBefore r
  end.

(** Going on from a character: the same, forward. *)
Fixpoint casedAfter (after : list N) : bool :=
  match after with
  | [] => false
  | c :: r => cased T c || caseIgnorable T c && casedAfter r
  end.

(** The condition Final_Sigma of SpecialCasing.txt. *)
Definition finalSigma (rev_before after : list N) : bool :=
  casedBefore rev_before && negb (casedAfter after).

(** Lower-casing from left to right, [rev_before] being what was read.
    The capital sigma U+03A3 becomes the final sigma U+03C2 where
    Final_Sigma holds and the sigma U+03C3 elsewhere; the capital I with
    dot U+0130 becomes [i] and the combining dot U+0307; any other code
    unit goes through the simple mapping.  (Characters beyond U+FFFF,
    which take two code units, are left as they are.) *)
Fixpoint lowerFrom (rev_before : list N) (s : ustring) : ustring :=
  match s with
  | [] => []
  | c :: rest =>
      ((if (c =? 931)%N
        then [if finalSigma rev_before rest then 962%N else 963%N]
        else if (c =? 304)%N then [105%N; 775%N]
        else [simpleLower T c])
       ++ lowerFrom (c :: rev_before) rest)%list
  end.

(** [String.prototype.toLowerCase] *)
Definition toLowerCase (s : ustring) : ustring := lowerFrom [] s.

End LowerCase.

Fixpoint startsWith (q s : ustring) : bool :=
  match q, s with
  | [], _ => true
  | _ :: _, [] => false
  | a :: q', b :: s' => (a =? b)%N && startsWith q' s'
  end.

(** [s.includes(q)] *)
Fixpoint includes (s q : ustring) : bool :=
  startsWith q s ||
  match s with
  | [] => false
  | _ :: s' => includes s' q
  end.

(** The four fields of a record that the search test reads. *)
Record Searched : Type := mkSearched {
  title : ustring;
  company : ustring;
  description : ustring;
  tags : list ustring
}.

(** [matchesSearch] of [filteredJobs], on these strings. *)
Definition matchesSearch (T : Tables) (searchQuery : ustring) (job : Searched)
    : bool :=
  negb (match searchQuery with [] => false | _ :: _ => true end) ||
  includes (toLowerCase T (title job)) (toLowerCase T searchQuery) ||
  includes (toLowerCase T (company job)) (toLowerCase T searchQuery) ||
  includes (toLowerCase T (description job)) (toLowerCase T searchQuery) ||
  existsb (fun tag => includes (toLowerCase T tag) (toLowerCase T searchQuery))
          (tags job).

(** The fields of a record of code units below 256. *)
Definition ofJob (job : Job) : Searched :=
  {| title := JSON.units (Job.title job);
     company := JSON.units (Job.company job);
     description := JSON.units (Job.description job);
     tags := map JSON.units (Job.tags job) |}.

Definition within (lo hi c : N) : bool := ((lo <=? c) && (c <=? hi))%N.

(** The tables for Basic Latin, Latin-1 Supplement and the Greek alphabet
    (U+0386 to U+03CE), with the combining marks U+0300 to U+036F; the
    characters of other blocks are not in them. *)
Definition latinGreek : Tables :=
  {| simpleLower := fun c =>
       if within 65 90 c || within 192 214 c || within 216 222 c ||
          within 913 929 c || within 931 939 c
       then (c + 32)%N
       else if (c =? 902)%N then 940%N
       else if within 904 906 c then (c + 37)%N
       else if (c =? 908)%N then 972%N
       else if within 910 911 c then (c + 63)%N
       else c;
     cased := fun c =>
       within 65 90 c || within 97 122 c ||
       (c =? 170)%N || (c =? 181)%N || (c =? 186)%N ||
       within 192 214 c || within 216 246 c || within 248 255 c ||
       (c =? 902)%N || within 904 906 c || (c =? 908)%N ||
       within 910 929 c || within 931 974 c;
     caseIgnorable := fun c =>
       (c =? 39)%N || (c =? 46)%N || (c =? 58)%N || (c =? 94)%N ||
       (c =? 96)%N || (c =? 168)%N || (c =? 173)%N || (c =? 175)%N ||
       (c =? 180)%N || (c =? 183)%N || (c =? 184)%N ||
       within 768 879 c || (c =? 890)%N || within 900 901 c || (c =? 903)%N |}.

End Unicode.

(* ------------------------------------------------------------------ *)
(** ** [App.tsx]: loading and the saved-job toggle                     *)
(* ------------------------------------------------------------------ *)

(** A row of the [jobs] table as [blink.db.jobs.list] hands it over; the
    fields are the ones [loadJobs] reads. *)
Module RawJob.

Record t : Type := mk {
  id : string;
  title : string;
  company : string;
  location : string;
  description : string;
  requirements : option string;
  benefits : option string;
  tags : option string;
  salary_min : option JS.number;
  salary_max : option JS.number;
  salary_currency : option string;
  employment_type : string;
  experience_level : string;
  application_type : Job.ApplicationType;
  application_email : option string;
  application_link : option string;
  user_id : string;
  created_at : string;
  updated_at : string
}.

End RawJob.

(** A row of the [savedJobs] table as the store hands it over. *)
Module RawSavedJob.

Record t : Type := mk {
  id : string;
  job_id : string;
  user_id : string;
  created_at : string
}.

End RawSavedJob.

Module App.

(** The [user] of the auth state; [null] is [None]. *)
Record User : Type := mkUser {
  user_id : string;
  user_email : string
}.

(** How an awaited call or a [try] block ends. *)
Inductive completion (A : Type) : Type :=
| Return (a : A)
| Throw (error : string).

Arguments Return {A}.
Arguments Throw {A}.

(** What the user or the developer gets to see. *)
Inductive Signal : Type :=
| toast (title description : string) (variant : option string)
| console_error (message error : string).

(** A record as [loadJobs] builds it: [tags] is what [JSON.parse] gave. *)
Definition LoadedJob : Type := Job.t JSON.value.

(** [job.tags ? JSON.parse(job.tags) : []] *)
Definition parseTags (tags : option string) : completion JSON.value :=
  match tags with
  | None => Return (JSON.Array [])
  | Some s =>
      if JS.truthy s
      then match JSON.parse s with
           | Some v => Return v
           | None => Throw "SyntaxError"
           end
      else Return (JSON.Array [])
  end.

(** [job.salary_currency || 'USD'] *)
Definition currencyOrUSD (c : option string) : string :=
  match c with
  | None => "USD"
  | Some s => if JS.truthy s then s else "USD"
  end.

(** The arrow function mapped over [jobsData]. *)
Definition formatJob (job : RawJob.t) : completion LoadedJob :=
  match parseTags (RawJob.tags job) with
  | Throw e => Throw e
  | Return tags =>
      Return {|
        Job.id := RawJob.id job;
        Job.title := RawJob.title job;
        Job.company := RawJob.company job;
        Job.location := RawJob.location job;
        Job.salaryMin := RawJob.salary_min job;
        Job.salaryMax := RawJob.salary_max job;
        Job.salaryCurrency := currencyOrUSD (RawJob.salary_currency job);
        Job.description := RawJob.description job;
        Job.requirements := RawJob.requirements job;
        Job.benefits := RawJob.benefits job;
        Job.employmentType := RawJob.employment_type job;
        Job.experienceLevel := RawJob.experience_level job;
        Job.applicationType := RawJob.application_type job;
        Job.applicationEmail := RawJob.application_email job;
        Job.applicationLink := RawJob.application_link job;
        Job.tags := tags;
        Job.userId := RawJob.user_id job;
        Job.createdAt := RawJob.created_at job;
        Job.updatedAt := RawJob.updated_at job
      |}
  end.

(** [jobsData.map(...)]: the first element whose callback throws ends
    the whole map. *)
Fixpoint formatJobs (jobsData : list RawJob.t) : completion (list LoadedJob) :=
  match jobsData with
  | [] => Return []
  | job :: rest =>
      match formatJob job with
      | Throw e => Throw e
      | Return j =>
          match formatJobs rest with
          | Throw e => Throw e
          | Return js => Return (j :: js)
          end
      end
  end.

Definition loadFailed (error : string) : list Signal :=
  [console_error "Error loading jobs:" error;
   toast "Error" "Failed to load jobs" (Some "destructive")].

(** [loadJobs] from the moment [blink.db.jobs.list] settles; [jobs] is
    the state cell, the result its new content and what was signalled. *)
Definition loadJobs (jobsData : completion (list RawJob.t))
    (jobs : list LoadedJob) : list LoadedJob * list Signal :=
  match jobsData with
  | Throw e => (jobs, loadFailed e)
  | Return data =>
      match formatJobs data with
      | Throw e => (jobs, loadFailed e)
      | Return formattedJobs => (formattedJobs, [])
      end
  end.

Definition formatSavedJob (savedJob : RawSavedJob.t) : SavedJob :=
  {| SavedJob.id := RawSavedJob.id savedJob;
     SavedJob.jobId := RawSavedJob.job_id savedJob;
     SavedJob.userId := RawSavedJob.user_id savedJob;
     SavedJob.createdAt := RawSavedJob.created_at savedJob |}.

(** [loadSavedJobs] from the moment [blink.db.savedJobs.list] settles. *)
Definition loadSavedJobs (savedJobsData : completion (list RawSavedJob.t))
    (savedJobs : list SavedJob) : list SavedJob * list Signal :=
  match savedJobsData with
  | Throw e => (savedJobs, [console_error "Error loading saved jobs:" e])
  | Return data => (map formatSavedJob data, [])
  end.

(** The calls the component makes on the store. *)
Inductive StoreCall : Type :=
| jobs_list
| savedJobs_list (userId : string)
| savedJobs_delete (id : string)
| savedJobs_create (id jobId userId : string).

(** [handleSaveJob] up to its [await]: [None] is the bare [return] of the
    first line, otherwise the call it goes to wait for.  [fresh] is the
    identifier built from [Date.now()] and [Math.random()]. *)
Definition handleSaveJob (user : option User) (savedJobs : list SavedJob)
    (jobId fresh : string) : option StoreCall :=
  match user with
  | None => None
  | Some u =>
      match find (fun save => SavedJob.jobId save =? jobId) savedJobs with
      | Some existingSave => Some (savedJobs_delete (SavedJob.id existingSave))
      | None => Some (savedJobs_create fresh jobId (user_id u))
      end
  end.

Definition saveFailed (error : string) : list Signal :=
  [console_error "Error saving job:" error;
   toast "Error" "Failed to save job" (Some "destructive")].

(** [handleSaveJob] once [blink.db.savedJobs.delete(existingSave.id)] has
    settled; [prev] is the state cell at that moment. *)
Definition handleSaveJob_deleted (existingSave_id : string)
    (r : completion unit) (prev : list SavedJob) : list SavedJob * list Signal :=
  match r with
  | Throw e => (prev, saveFailed e)
  | Return _ =>
      (filter (fun save => negb (SavedJob.id save =? existingSave_id)) prev,
       [toast "Job unsaved" "Job removed from saved jobs" None])
  end.

(** [handleSaveJob] once [blink.db.savedJobs.create(...)] has settled. *)
Definition handleSaveJob_created (r : completion RawSavedJob.t)
    (prev : list SavedJob) : list SavedJob * list Signal :=
  match r with
  | Throw e => (prev, saveFailed e)
  | Return newSave =>
      ((prev ++ [formatSavedJob newSave])%list,
       [toast "Job saved" "Job added to saved jobs" None])
  end.

(** *** The component as a transition system *)

Record State : Type := mkState {
  user : option User;
  jobs : list LoadedJob;
  savedJobs : list SavedJob;
  inflight : list StoreCall;
  signals : list Signal
}.

Definition initial : State := mkState None [] [] [] [].

(** What a settled call resolves with. *)
Inductive Payload : Type :=
| nothing
| jobsData (rows : list RawJob.t)
| savedJobsData (rows : list RawSavedJob.t)
| newSave (row : RawSavedJob.t).

(** What [onAuthStateChanged] hands over as [state.user]: the very object
    the component holds already, or another value (another user object,
    or [null]). *)
Inductive Announced : Type :=
| same_object
| other (u : option User).

Inductive Event : Type :=
| AuthStateChanged (a : Announced)
| JobPosted
| SaveJob (jobId fresh : string)
| Settled (n : nat) (r : completion Payload).

Fixpoint remove_nth {A : Type} (n : nat) (l : list A) : list A :=
  match n, l with
  | _, [] => []
  | O, _ :: l' => l'
  | S n', x :: l' => x :: remove_nth n' l'
  end.

(** The continuation of the call [c] on the outcome [r]; [None] when [r]
    does not have the shape [c] resolves with. *)
Definition settle (c : StoreCall) (r : completion Payload) (st : State)
    : option (list LoadedJob * list SavedJob * list Signal) :=
  match c, r with
  | jobs_list, Throw e =>
      let '(js, sig) := loadJobs (Throw e) (jobs st) in
      Some (js, savedJobs st, sig)
  | jobs_list, Return (jobsData rows) =>
      let '(js, sig) := loadJobs (Return rows) (jobs st) in
      Some (js, savedJobs st, sig)
  | savedJobs_list _, Throw e =>
      let '(sv, sig) := loadSavedJobs (Throw e) (savedJobs st) in
      Some (jobs st, sv, sig)
  | savedJobs_list _, Return (savedJobsData rows) =>
      let '(sv, sig) := loadSavedJobs (Return rows) (savedJobs st) in
      Some (jobs st, sv, sig)
  | savedJobs_delete id, Throw e =>
      let '(sv, sig) := handleSaveJob_deleted id (Throw e) (savedJobs st) in
      Some (jobs st, sv, sig)
  | savedJobs_delete id, Return _ =>
      let '(sv, sig) := handleSaveJob_deleted id (Return tt) (savedJobs st) in
      Some (jobs st, sv, sig)
  | savedJobs_create _ _ _, Throw e =>
      let '(sv, sig) := handleSaveJob_created (Throw e) (savedJobs st) in
      Some (jobs st, sv, sig)
  | savedJobs_create _ _ _, Return (newSave row) =>
      let '(sv, sig) := handleSaveJob_created (Return row) (savedJobs st) in
      Some (jobs st, sv, sig)
  | _, _ => None
  end.

(** One event of the single-threaded event loop.  [None]: the event
    cannot happen in [st] (no such call in flight, or an outcome of the
    wrong shape). *)
Definition step (st : State) (e : Event) : option State :=
  match e with
  | AuthStateChanged same_object =>
      (* [setUser] with the object it holds: [user] is unchanged, and the
         effect on [user, loadJobs, loadSavedJobs] does not run again *)
      Some st
  | AuthStateChanged (other u) =>
      (* [setUser], then the effect, [user] having changed: both loads
         when the new value is a user *)
      let calls := match u with
                   | Some usr => [jobs_list; savedJobs_list (user_id usr)]
                   | None => []
                   end in
      Some (mkState u (jobs st) (savedJobs st) (inflight st ++ calls) (signals st))
  | JobPosted =>
      Some (mkState (user st) (jobs st) (savedJobs st)
              (inflight st ++ [jobs_list])
              (signals st ++ [toast "Success" "Job posted successfully!" None]))
  | SaveJob jobId fresh =>
      (* the handler bound at a click is the one of the latest render: it
         reads the cells as they are now *)
      match handleSaveJob (user st) (savedJobs st) jobId fresh with
      | None => Some st
      | Some call =>
          Some (mkState (user st) (jobs st) (savedJobs st)
                  (inflight st ++ [call]) (signals st))
      end
  | Settled n r =>
      match nth_error (inflight st) n with
      | None => None
      | Some call =>
          match settle call r st with
          | None => None
          | Some (js, sv, sig) =>
              Some (mkState (user st) js sv (remove_nth n (inflight st))
                      (signals st ++ sig))
          end
      end
  end.

Fixpoint run (st : State) (es : list Event) : option State :=
  match es with
  | [] => Some st
  | e :: es' =>
      match step st e with
      | None => None
      | Some st' => run st' es'
      end
  end.

End App.

(* ------------------------------------------------------------------ *)
(** ** [formatSalary], as the board and the two modals define it       *)
(* ------------------------------------------------------------------ *)

Module Intl.

Definition isAsciiLetter (c : ascii) : bool :=
  let n := N_of_ascii c in
  ((65 <=? n) && (n <=? 90) || (97 <=? n) && (n <=? 122))%N.

(** The check [new Intl.NumberFormat] makes on the [currency] option:
    three ASCII letters, or a [RangeError]. *)
Definition wellFormedCurrencyCode (code : string) : bool :=
  match code with
  | String a (String b (String c EmptyString)) =>
      isAsciiLetter a && isAsciiLetter b && isAsciiLetter c
  | _ => false
  end.

End Intl.

Module SalaryLabel.

Section Formatter.

(** [formatter.format(n)] for the formatter of a currency: the text is
    the platform's. *)
Variable format : string -> JS.number -> string.

(** [!min] is false. *)
Definition given (n : option JS.number) : bool :=
  match n with
  | None => false
  | Some v => JS.truthy_number v
  end.

(** The argument as [format] receives it ([undefined] formats as [NaN]). *)
Definition arg (n : option JS.number) : JS.number :=
  match n with
  | None => JS.NaN
  | Some v => v
  end.

(** [formatSalary(min, max, currency = 'USD')]; [Return None] is the
    [undefined] of a call that runs off the end of the body. *)
Definition formatSalary (min max : option JS.number) (currency : option string)
    : App.completion (option string) :=
  let currency := match currency with Some c => c | None => "USD" end in
  if negb (given min) && negb (given max)
  then App.Return (Some "Salary not specified")
  else if negb (Intl.wellFormedCurrencyCode currency)
  then App.Throw "RangeError"
  else if given min && given max
  then App.Return (Some (format currency (arg min) ++ " - " ++ format currency (arg max)))
  else if given min
  then App.Return (Some (format currency (arg min) ++ "+"))
  else if given max
  then App.Return (Some ("Up to " ++ format currency (arg max)))
  else App.Return None.

(** The call of the three components on a record. *)
Definition salaryOf {TAGS : Type} (job : Job.t TAGS) : App.completion (option string) :=
  formatSalary (Job.salaryMin job) (Job.salaryMax job) (Some (Job.salaryCurrency job)).

End Formatter.

End SalaryLabel.

(* ------------------------------------------------------------------ *)
(** ** [SavedJobsModal.tsx]                                            *)
(* ------------------------------------------------------------------ *)

Module SavedJobsModal.

(** [.filter(Boolean)] on an array of objects and [null]s. *)
Fixpoint filterBoolean {A : Type} (l : list (option A)) : list A :=
  match l with
  | [] => []
  | Some x :: l' => x :: filterBoolean l'
  | None :: l' => filterBoolean l'
  end.

(** Each mark with the record it points to, the marks whose record is not
    among [jobs] left out. *)
Definition savedJobsWithData {TAGS : Type} (savedJobs : list SavedJob)
    (jobs : list (Job.t TAGS)) : list (SavedJob * Job.t TAGS) :=
  filterBoolean
    (map (fun savedJob =>
            match find (fun j => Job.id j =? SavedJob.jobId savedJob) jobs with
            | Some job => Some (savedJob, job)
            | None => None
            end)
         savedJobs).

(** The click on the bin of a row: [onUnsaveJob(job.id)], which [App]
    binds to [handleSaveJob]. *)
Definition onUnsaveClick {TAGS : Type} (user : option App.User)
    (savedJobs : list SavedJob) (entry : SavedJob * Job.t TAGS) (fresh : string)
    : option App.StoreCall :=
  App.handleSaveJob user savedJobs (Job.id (snd entry)) fresh.

End SavedJobsModal.

(* ------------------------------------------------------------------ *)
(** ** [JobDetailsModal.tsx]                                           *)
(* ------------------------------------------------------------------ *)

Module JobDetailsModal.

Inductive Navigation : Type :=
| location_href (url : string)
| window_open (url target : string)
| stay.

(** [s && ...] on an optional string. *)
Definition present (s : option string) : option string :=
  match s with
  | Some v => if JS.truthy v then Some v else None
  | None => None
  end.

Definition handleApply {TAGS : Type} (job : Job.t TAGS) : Navigation :=
  match Job.applicationType job, present (Job.applicationEmail job),
        present (Job.applicationLink job) with
  | Job.email, Some applicationEmail, _ =>
      location_href ("mailto:" ++ applicationEmail ++ "?subject=Application for "
                     ++ Job.title job ++ " at " ++ Job.company job)
  | Job.link, _, Some applicationLink => window_open applicationLink "_blank"
  | _, _, _ => stay
  end.

End JobDetailsModal.

(* ------------------------------------------------------------------ *)
(** ** [PostJobModal.tsx]                                              *)
(* ------------------------------------------------------------------ *)

Module PostJobModal.

Record FormData : Type := mkForm {
  title : string;
  company : string;
  location : string;
  salaryMin : string;
  salaryMax : string;
  salaryCurrency : string;
  description : string;
  requirements : string;
  benefits : string;
  employmentType : string;
  experienceLevel : string;
  applicationType : Job.ApplicationType;
  applicationEmail : string;
  applicationLink : string
}.

Definition emptyForm : FormData :=
  mkForm "" "" "" "" "" "USD" "" "" "" "" "" Job.email "" "".

Record State : Type := mkState {
  loading : bool;
  formData : FormData;
  tags : list string;
  tagInput : string
}.

Definition initial : State := mkState false emptyForm [] "".

Definition addTag (st : State) : State :=
  if JS.truthy (JS.trim (tagInput st)) &&
     negb (JS.arrayIncludes (tags st) (JS.trim (tagInput st)))
  then mkState (loading st) (formData st)
         (tags st ++ [JS.trim (tagInput st)]) ""
  else st.

Definition removeTag (tagToRemove : string) (st : State) : State :=
  mkState (loading st) (formData st)
    (filter (fun tag => negb (tag =? tagToRemove)) (tags st)) (tagInput st).

Definition handleKeyPress (key : string) (st : State) : State :=
  if key =? "Enter" then addTag st else st.

Definition setTagInput (v : string) (st : State) : State :=
  mkState (loading st) (formData st) (tags st) v.

Definition resetForm (st : State) : State :=
  mkState (loading st) emptyForm [] "".

(** What the user does to the tags of the form. *)
Inductive TagEvent : Type :=
| TypeTag (v : string)
| ClickAdd
| KeyPress (key : string)
| ClickRemove (tag : string).

Definition onTagEvent (st : State) (e : TagEvent) : State :=
  match e with
  | TypeTag v => setTagInput v st
  | ClickAdd => addTag st
  | KeyPress key => handleKeyPress key st
  | ClickRemove tag => removeTag tag st
  end.

(** The object handed to [blink.db.jobs.create]. *)
Record Posting : Type := mkPosting {
  p_id : string;
  p_title : string;
  p_company : string;
  p_location : string;
  p_salaryMin : option JS.number;
  p_salaryMax : option JS.number;
  p_salaryCurrency : string;
  p_description : string;
  p_requirements : option string;
  p_benefits : option string;
  p_employmentType : string;
  p_experienceLevel : string;
  p_applicationType : Job.ApplicationType;
  p_applicationEmail : option string;
  p_applicationLink : option string;
  p_tags : string;
  p_userId : string
}.

(** [s ? parseInt(s) : null] *)
Definition salary (s : string) : option JS.number :=
  if JS.truthy s then Some (JS.parseInt s) else None.

(** [s || null] *)
Definition orNull (s : string) : option string :=
  if JS.truthy s then Some s else None.

Definition posting (f : FormData) (tags : list string) (fresh : string)
    (user : App.User) : Posting :=
  {| p_id := fresh;
     p_title := title f;
     p_company := company f;
     p_location := location f;
     p_salaryMin := salary (salaryMin f);
     p_salaryMax := salary (salaryMax f);
     p_salaryCurrency := salaryCurrency f;
     p_description := description f;
     p_requirements := orNull (requirements f);
     p_benefits := orNull (benefits f);
     p_employmentType := employmentType f;
     p_experienceLevel := experienceLevel f;
     p_applicationType := applicationType f;
     p_applicationEmail :=
       match applicationType f with
       | Job.email => Some (applicationEmail f)
       | Job.link => None
       end;
     p_applicationLink :=
       match applicationType f with
       | Job.link => Some (applicationLink f)
       | Job.email => None
       end;
     p_tags := JSON.stringify tags;
     p_userId := App.user_id user |}.

Definition requiredToast (what : string) : App.Signal :=
  App.toast "Error" what (Some "destructive").

(** The three checks at the top of [handleSubmit]: the toast of the first
    one that fails. *)
Definition validate (f : FormData) : option App.Signal :=
  if negb (JS.truthy (title f)) || negb (JS.truthy (company f)) ||
     negb (JS.truthy (location f)) || negb (JS.truthy (description f)) ||
     negb (JS.truthy (employmentType f)) || negb (JS.truthy (experienceLevel f))
  then Some (requiredToast "Please fill in all required fields")
  else match applicationType f with
       | Job.email =>
           if negb (JS.truthy (applicationEmail f))
           then Some (requiredToast "Please provide an application email")
           else None
       | Job.link =>
           if negb (JS.truthy (applicationLink f))
           then Some (requiredToast "Please provide an application link")
           else None
       end.

Definition postFailed (error : string) : list App.Signal :=
  [App.console_error "Error posting job:" error;
   App.toast "Error" "Failed to post job. Please try again." (Some "destructive")].

(** A whole run of [handleSubmit]. *)
Record Outcome : Type := mkOutcome {
  after : State;
  signalled : list App.Signal;
  sent : option Posting;
  onJobPosted : bool
}.

(** [handleSubmit] on the state [st]; [me] is how [blink.auth.me()]
    settles and [created] how [blink.db.jobs.create] does, when it is
    reached. *)
Definition handleSubmit (st : State) (fresh : string)
    (me : App.completion App.User) (created : App.completion unit) : Outcome :=
  match validate (formData st) with
  | Some t => mkOutcome st [t] None false
  | None =>
      let idle := mkState false (formData st) (tags st) (tagInput st) in
      match me with
      | App.Throw e => mkOutcome idle (postFailed e) None false
      | App.Return user =>
          let p := posting (formData st) (tags st) fresh user in
          match created with
          | App.Throw e => mkOutcome idle (postFailed e) (Some p) false
          | App.Return _ =>
              mkOutcome (mkState false emptyForm [] "") [] (Some p) true
          end
      end
  end.

End PostJobModal.

(* ------------------------------------------------------------------ *)
(** ** Properties the sources are checked against                      *)
(* ------------------------------------------------------------------ *)

Module Spec.

(** A capital letter of Basic Latin or Latin-1: [A] to [Z], and U+00C0
    to U+00DE without the multiplication sign U+00D7. *)
Definition capital (c : ascii) : bool :=
  let n := N_of_ascii c in
  ((65 <=? n) && (n <=? 90) ||
   (192 <=? n) && (n <=? 214) || (216 <=? n) && (n <=? 222))%N.

(** The same letter, capital or small: the same code unit, or a capital
    and its small letter, which is 32 code units above it. *)
Definition same_letter (c d : ascii) : bool :=
  Ascii.eqb c d ||
  capital c && (N_of_ascii d =? N_of_ascii c + 32)%N ||
  capital d && (N_of_ascii c =? N_of_ascii d + 32)%N.

(** The same text up to the case of its letters. *)
Fixpoint same_text (a b : string) : bool :=
  match a, b with
  | EmptyString, EmptyString => true
  | String c a', String d b' => same_letter c d && same_text a' b'
  | _, _ => false
  end.

(** [q] occurs in [s] up to letter case: some contiguous part of [s] is
    the text of [q] up to the case of its letters. *)
Definition ci_substring (q s : string) : Prop :=
  exists pre mid post,
    s = pre ++ mid ++ post /\ same_text mid q = true.

(** All the code units below 256. *)
Definition all_ascii : list ascii := map ascii_of_nat (seq 0 256).

(** One more predicate is in force in [fs'] than in [fs]: one of the
    five cells went from empty to some value, the others kept theirs. *)
Inductive adds_predicate : JobBoard.FilterState -> JobBoard.FilterState -> Prop :=
| add_search v l t x s :
    adds_predicate (JobBoard.mkFilters "" l t x s) (JobBoard.mkFilters v l t x s)
| add_location q v t x s :
    adds_predicate (JobBoard.mkFilters q "" t x s) (JobBoard.mkFilters q v t x s)
| add_employmentType q l v x s :
    adds_predicate (JobBoard.mkFilters q l "" x s) (JobBoard.mkFilters q l v x s)
| add_experienceLevel q l t v s :
    adds_predicate (JobBoard.mkFilters q l t "" s) (JobBoard.mkFilters q l t v s)
| add_salaryMin q l t x v :
    adds_predicate (JobBoard.mkFilters q l t x "") (JobBoard.mkFilters q l t x v).

(** The salary rule in the words of the specification: the record has
    a [salaryMin] and it is at least the threshold. *)
Definition salary_rule (threshold : string) (job : Job) : Prop :=
  exists m, Job.salaryMin job = Some m /\
            JS.ge m (JS.parseInt threshold) = true.

(** At most one mark for each pair of a user and a record. *)
Definition unique_pairs (marks : list SavedJob) : Prop :=
  NoDup (map (fun s => (SavedJob.userId s, SavedJob.jobId s)) marks).

(** The marks of the user [uid]. *)
Definition own (uid : string) (marks : list SavedJob) : list SavedJob :=
  filter (fun s => SavedJob.userId s =? uid) marks.

(** Strictly below, in the order of the code units. *)
Definition str_lt (a b : string) : Prop := (a <? b) = true.

End Spec.

(* ------------------------------------------------------------------ *)
(** ** Sample data                                                     *)
(* ------------------------------------------------------------------ *)

Module Sample.

Definition job (id : string) (salaryMin salaryMax : option JS.number)
    (tags : list string) : Job :=
  {| Job.id := id;
     Job.title := "Frontend Engineer";
     Job.company := "Acme";
     Job.location := "Remote";
     Job.salaryMin := salaryMin;
     Job.salaryMax := salaryMax;
     Job.salaryCurrency := "USD";
     Job.description := "Build the board";
     Job.requirements := None;
     Job.benefits := None;
     Job.employmentType := "full-time";
     Job.experienceLevel := "senior";
     Job.applicationType := Job.email;
     Job.applicationEmail := Some "jobs@acme.test";
     Job.applicationLink := None;
     Job.tags := tags;
     Job.userId := "user_1";
     Job.createdAt := "2024-01-02";
     Job.updatedAt := "2024-01-02" |}.

(** A record tagged [React], paid from 60000 to 90000. *)
Definition job_react : Job :=
  job "job_1" (Some (JS.Num 60000)) (Some (JS.Num 90000)) ["React"; "TypeScript"].

(** A record with [salaryMax] only. *)
Definition job_max_only : Job :=
  job "job_2" None (Some (JS.Num 60000)) [].

(** A record posted with [0] typed in the minimum-salary field. *)
Definition job_unpaid : Job :=
  job "job_3" (Some (JS.Num 0)) None [].

(** A row of the [jobs] table with the given [tags] column. *)
Definition row (id : string) (tags : option string) : RawJob.t :=
  {| RawJob.id := id;
     RawJob.title := "Frontend Engineer";
     RawJob.company := "Acme";
     RawJob.location := "Remote";
     RawJob.description := "Build the board";
     RawJob.requirements := None;
     RawJob.benefits := None;
     RawJob.tags := tags;
     RawJob.salary_min := Some (JS.Num 60000);
     RawJob.salary_max := None;
     RawJob.salary_currency := None;
     RawJob.employment_type := "full-time";
     RawJob.experience_level := "senior";
     RawJob.application_type := Job.email;
     RawJob.application_email := Some "jobs@acme.test";
     RawJob.application_link := None;
     RawJob.user_id := "user_1";
     RawJob.created_at := "2024-01-02";
     RawJob.updated_at := "2024-01-02" |}.

(** A stand-in for the platform's formatter: the code and the digits. *)
Definition format (currency : string) (n : JS.number) : string :=
  currency ++ " " ++
  match n with
  | JS.NaN => "NaN"
  | JS.Num z => NilZero.string_of_int (Z.to_int z)
  end.

Definition me : App.User := App.mkUser "user_1" "me@acme.test".

(** A mark of [user_1] on [job_1], and the row it comes from. *)
Definition mark_row : RawSavedJob.t :=
  RawSavedJob.mk "save_1" "job_1" "user_1" "2024-01-03".

(** A second row for the same user and record. *)
Definition mark_row_again : RawSavedJob.t :=
  RawSavedJob.mk "save_2" "job_1" "user_1" "2024-01-04".

Definition mark : SavedJob := App.formatSavedJob mark_row.

(** A mark of another user on [job_1]. *)
Definition mark_of_other : SavedJob :=
  SavedJob.mk "save_9" "job_1" "user_2" "2024-01-05".

(** A record to apply to by link. *)
Definition job_by_link : Job :=
  {| Job.id := "job_9";
     Job.title := "Prover";
     Job.company := "Acme";
     Job.location := "Remote";
     Job.salaryMin := Some (JS.Num 0);
     Job.salaryMax := None;
     Job.salaryCurrency := "USD";
     Job.description := "Prove it";
     Job.requirements := None;
     Job.benefits := None;
     Job.employmentType := "full-time";
     Job.experienceLevel := "senior";
     Job.applicationType := Job.link;
     Job.applicationEmail := None;
     Job.applicationLink := Some "https://acme.test/apply";
     Job.tags := ["Rocq"];
     Job.userId := "user_1";
     Job.createdAt := "2024-01-02";
     Job.updatedAt := "2024-01-02" |}.

(** The form that posts it, filled in and with one tag. *)
Definition form_filled : PostJobModal.State :=
  PostJobModal.mkState false
    (PostJobModal.mkForm "Prover" "Acme" "Remote" "0" "" "USD" "Prove it" "" ""
       "full-time" "senior" Job.link "" "https://acme.test/apply")
    ["Rocq"] "".

(** Signed in, nothing loaded, nothing in flight. *)
Definition signed_in : App.State := App.mkState (Some me) [] [] [] [].

(** Signed in with [job_1] saved. *)
Definition signed_in_saved : App.State := App.mkState (Some me) [] [mark] [] [].

End Sample.

(* ------------------------------------------------------------------ *)
(** ** Strings                                                         *)
(* ------------------------------------------------------------------ *)

Section StringFacts.

Lemma append_nil_r (s : string) : s ++ "" = s.
Proof. induction s as [|c s IH]; simpl; [reflexivity | now rewrite IH]. Qed.

Lemma append_assoc (a b c : string) : (a ++ b) ++ c = a ++ (b ++ c).
Proof. induction a as [|x a IH]; simpl; [reflexivity | now rewrite IH]. Qed.

Lemma prefix_iff (q s : string) :
  prefix q s = true <-> exists post, s = q ++ post.
Proof.
  revert s; induction q as [|c q IH]; intros s.
  - split; [intros _; exists s; reflexivity | intros _; now destruct s].
  - destruct s as [|d s]; simpl.
    + split; [discriminate | intros [post H]; discriminate].
    + destruct (ascii_dec c d) as [->|Hne].
      * rewrite IH. split; intros [post H]; exists post.
        -- now rewrite H.
        -- now injection H.
      * split; [discriminate | intros [post H]; injection H; congruence].
Qed.

Lemma includes_iff (s q : string) :
  JS.includes s q = true <-> exists pre post, s = pre ++ q ++ post.
Proof.
  induction s as [|c s IH].
  - change (JS.includes "" q) with (prefix q "" || false).
    rewrite orb_false_r, prefix_iff. split.
    + intros [post H]. exists "", post. exact H.
    + intros [[|x pre] [post H]]; [now exists post | discriminate].
  - change (JS.includes (String c s) q)
      with (prefix q (String c s) || JS.includes s q).
    rewrite orb_true_iff, prefix_iff, IH. split.
    + intros [[post H] | [pre [post H]]].
      * exists "", post. exact H.
      * exists (String c pre), post. simpl. now rewrite H.
    + intros [[|x pre] [post H]].
      * left. now exists post.
      * right. simpl in H. injection H as _ H. now exists pre, post.
Qed.

Lemma toLowerCase_app (a b : string) :
  JS.toLowerCase (a ++ b) = JS.toLowerCase a ++ JS.toLowerCase b.
Proof. induction a as [|c a IH]; simpl; [reflexivity | now rewrite IH]. Qed.

(** A decomposition of the lower-case form comes from one of the string. *)
Lemma toLowerCase_split (s a b : string) :
  JS.toLowerCase s = a ++ b ->
  exists a' b', s = a' ++ b' /\ JS.toLowerCase a' = a /\ JS.toLowerCase b' = b.
Proof.
  revert s; induction a as [|c a IH]; intros s H.
  - exists "", s. auto.
  - destruct s as [|d s]; simpl in H; [discriminate|].
    injection H as Hc H. destruct (IH _ H) as (a' & b' & -> & Ha & Hb).
    exists (String d a'), b'. simpl. now rewrite Hc, Ha.
Qed.

Lemma In_all_ascii (c : ascii) : In c Spec.all_ascii.
Proof.
  unfold Spec.all_ascii. rewrite <- (ascii_nat_embedding c).
  apply in_map, in_seq. pose proof (nat_ascii_bounded c). lia.
Qed.

(** Checked on every pair of code units: two of them have the same
    lower-case form exactly when they are the same letter. *)
Lemma same_letter_table :
  forallb (fun c =>
    forallb (fun d =>
      Bool.eqb (Ascii.eqb (JS.toLowerCase_char c) (JS.toLowerCase_char d))
               (Spec.same_letter c d))
      Spec.all_ascii)
    Spec.all_ascii = true.
Proof. vm_compute. reflexivity. Qed.

Lemma same_letter_iff (c d : ascii) :
  Spec.same_letter c d = true <-> JS.toLowerCase_char c = JS.toLowerCase_char d.
Proof.
  pose proof same_letter_table as H.
  rewrite forallb_forall in H. specialize (H c (In_all_ascii c)).
  rewrite forallb_forall in H. specialize (H d (In_all_ascii d)).
  apply Bool.eqb_prop in H. rewrite <- H. apply Ascii.eqb_eq.
Qed.

Lemma same_text_iff (a b : string) :
  Spec.same_text a b = true <-> JS.toLowerCase a = JS.toLowerCase b.
Proof.
  revert b; induction a as [|c a IH]; intros [|d b]; simpl;
    try (split; discriminate); [tauto|].
  rewrite andb_true_iff, same_letter_iff, IH. split.
  - intros [-> ->]. reflexivity.
  - intros H. injection H as H1 H2. auto.
Qed.

(** The test of [filteredJobs] on one field is the case-blind search. *)
Lemma includes_lower_iff (s q : string) :
  JS.includes (JS.toLowerCase s) (JS.toLowerCase q) = true <->
  Spec.ci_substring q s.
Proof.
  rewrite includes_iff. split.
  - intros (pre & post & H).
    destruct (toLowerCase_split _ _ _ H) as (pre' & r & -> & _ & Hr).
    destruct (toLowerCase_split _ _ _ Hr) as (mid & post' & -> & Hm & _).
    exists pre', mid, post'. split; [reflexivity | now apply same_text_iff].
  - intros (pre & mid & post & -> & Hm). apply same_text_iff in Hm.
    exists (JS.toLowerCase pre), (JS.toLowerCase post).
    now rewrite !toLowerCase_app, Hm.
Qed.

Lemma truthy_iff (s : string) : JS.truthy s = true <-> s <> "".
Proof. destruct s; simpl; split; congruence. Qed.

End StringFacts.

(* ------------------------------------------------------------------ *)
(** ** Strings of code units below 256 among all strings               *)
(* ------------------------------------------------------------------ *)

Section CodeUnits.

Lemma N_of_ascii_inj (a b : ascii) : N_of_ascii a = N_of_ascii b -> a = b.
Proof.
  intros H. rewrite <- (ascii_N_embedding a), <- (ascii_N_embedding b).
  now rewrite H.
Qed.

(** On a code unit below 256 the general lower-casing is the map of
    [JS.toLowerCase_char]. *)
Lemma lowerFrom_unit (c : ascii) (rev_before rest : list N) :
  Unicode.lowerFrom Unicode.latinGreek rev_before (N_of_ascii c :: rest) =
  N_of_ascii (JS.toLowerCase_char c)
    :: Unicode.lowerFrom Unicode.latinGreek (N_of_ascii c :: rev_before) rest.
Proof. destruct c as [[] [] [] [] [] [] [] []]; reflexivity. Qed.

Lemma lowerFrom_units (s : string) (rev_before : list N) :
  Unicode.lowerFrom Unicode.latinGreek rev_before (JSON.units s) =
  JSON.units (JS.toLowerCase s).
Proof.
  revert rev_before; induction s as [|c s IH]; intros rev_before; [reflexivity|].
  change (JSON.units (String c s)) with (N_of_ascii c :: JSON.units s).
  rewrite lowerFrom_unit, IH. reflexivity.
Qed.

Lemma startsWith_units (q s : string) :
  Unicode.startsWith (JSON.units q) (JSON.units s) = prefix q s.
Proof.
  revert s; induction q as [|a q IH]; intros [|b s]; try reflexivity.
  change (JSON.units (String a q)) with (N_of_ascii a :: JSON.units q).
  change (JSON.units (String b s)) with (N_of_ascii b :: JSON.units s).
  simpl. rewrite IH. destruct (ascii_dec a b) as [->|Hne].
  - now rewrite N.eqb_refl.
  - destruct (N.eqb_spec (N_of_ascii a) (N_of_ascii b)) as [Heq|]; [|reflexivity].
    now apply N_of_ascii_inj in Heq.
Qed.

Lemma includes_units (s q : string) :
  Unicode.includes (JSON.units s) (JSON.units q) = JS.includes s q.
Proof.
  induction s as [|c s IH].
  - change (Unicode.includes (JSON.units "") (JSON.units q))
      with (Unicode.startsWith (JSON.units q) (JSON.units "") || false).
    change (JS.includes "" q) with (prefix q "" || false).
    now rewrite startsWith_units.
  - change (Unicode.includes (JSON.units (String c s)) (JSON.units q))
      with (Unicode.startsWith (JSON.units q) (JSON.units (String c s))
            || Unicode.includes (JSON.units s) (JSON.units q)).
    change (JS.includes (String c s) q)
      with (prefix q (String c s) || JS.includes s q).
    now rewrite startsWith_units, IH.
Qed.

Lemma includes_lower_units (s q : string) :
  Unicode.includes (Unicode.toLowerCase Unicode.latinGreek (JSON.units s))
                   (Unicode.toLowerCase Unicode.latinGreek (JSON.units q))
  = JS.includes (JS.toLowerCase s) (JS.toLowerCase q).
Proof. unfold Unicode.toLowerCase. now rewrite !lowerFrom_units, includes_units. Qed.

(** On records and queries of code units below 256 the search test on all
    strings is [JobBoard.matchesSearch]. *)
Lemma matchesSearch_units (q : string) (job : Job) :
  Unicode.matchesSearch Unicode.latinGreek (JSON.units q) (Unicode.ofJob job)
  = JobBoard.matchesSearch q job.
Proof.
  unfold Unicode.matchesSearch, JobBoard.matchesSearch, Unicode.ofJob.
  cbn [Unicode.title Unicode.company Unicode.description Unicode.tags].
  assert (Ht : match JSON.units q with [] => false | _ :: _ => true end
               = JS.truthy q) by (now destruct q).
  assert (He : existsb
                 (fun tag =>
                    Unicode.includes (Unicode.toLowerCase Unicode.latinGreek tag)
                      (Unicode.toLowerCase Unicode.latinGreek (JSON.units q)))
                 (map JSON.units (Job.tags job))
               = existsb
                   (fun tag => JS.includes (JS.toLowerCase tag) (JS.toLowerCase q))
                   (Job.tags job)).
  { induction (Job.tags job) as [|tag tags IH]; [reflexivity|].
    simpl. now rewrite includes_lower_units, IH. }
  now rewrite Ht, He, !includes_lower_units.
Qed.

(** The search test on all strings, spelled out. *)
Lemma matchesSearch_unicode_iff (T : Unicode.Tables) (q : Unicode.ustring)
    (job : Unicode.Searched) :
  q <> [] ->
  Unicode.matchesSearch T q job = true <->
  Unicode.includes (Unicode.toLowerCase T (Unicode.title job))
                   (Unicode.toLowerCase T q) = true \/
  Unicode.includes (Unicode.toLowerCase T (Unicode.company job))
                   (Unicode.toLowerCase T q) = true \/
  Unicode.includes (Unicode.toLowerCase T (Unicode.description job))
                   (Unicode.toLowerCase T q) = true \/
  Exists (fun tag => Unicode.includes (Unicode.toLowerCase T tag)
                                      (Unicode.toLowerCase T q) = true)
         (Unicode.tags job).
Proof.
  intros Hq. unfold Unicode.matchesSearch.
  destruct q as [|c q]; [contradiction|]. cbn [negb orb].
  rewrite !orb_true_iff, existsb_exists, Exists_exists. tauto.
Qed.

End CodeUnits.

(* ------------------------------------------------------------------ *)
(** ** The filter engine                                               *)
(* ------------------------------------------------------------------ *)

Section FilterEngine.

Import JobBoard.

Lemma passes_no_filter (job : Job) : passes (mkFilters "" "" "" "" "") job = true.
Proof. reflexivity. Qed.

Lemma filter_all {A : Type} (p : A -> bool) (l : list A) :
  (forall x, p x = true) -> filter p l = l.
Proof.
  intros H; induction l as [|x l IH]; simpl; [reflexivity|].
  now rewrite H, IH.
Qed.

Lemma filter_length_mono {A : Type} (p q : A -> bool) (l : list A) :
  (forall x, p x = true -> q x = true) ->
  List.length (filter p l) <= List.length (filter q l).
Proof.
  intros H; induction l as [|x l IH]; simpl; [lia|].
  destruct (p x) eqn:Hp.
  - rewrite (H _ Hp). simpl. lia.
  - destruct (q x); simpl; lia.
Qed.

Lemma clearFilters_empty (fs : FilterState) :
  clearFilters fs = mkFilters "" "" "" "" "".
Proof. reflexivity. Qed.

(** A record that passes with one more predicate passed without it. *)
Lemma adds_predicate_passes (fs fs' : FilterState) (job : Job) :
  Spec.adds_predicate fs fs' -> passes fs' job = true -> passes fs job = true.
Proof.
  intros H; destruct H; unfold passes; simpl;
    rewrite !andb_true_iff; intuition auto.
Qed.

(** C7: with the five predicates empty [filteredJobs] returns the records
    it was given, unchanged; [clearFilters] empties the five predicates
    at once, so that after it, whatever changes of the filters came
    before, [filteredJobs] again returns its input unchanged. *)
Theorem filteredJobs_identity_after_clear (jobs : list Job) :
  filteredJobs jobs (mkFilters "" "" "" "" "") = jobs /\
  (forall fs, clearFilters fs = mkFilters "" "" "" "" "") /\
  (forall fs es, filteredJobs jobs (clearFilters (onEvents fs es)) = jobs) /\
  (forall fs es, filteredJobs jobs (onEvents fs (es ++ [ClearFilters])) = jobs).
Proof.
  assert (Hid : filteredJobs jobs (mkFilters "" "" "" "" "") = jobs)
    by (apply filter_all, passes_no_filter).
  repeat split.
  - exact Hid.
  - intros fs es. now rewrite clearFilters_empty.
  - intros fs es. unfold onEvents. rewrite fold_left_app. simpl.
    now rewrite clearFilters_empty.
Qed.

(** C8: putting one more predicate in force, the others unchanged, never
    makes the result of [filteredJobs] longer. *)
Theorem filteredJobs_monotonic (jobs : list Job) (fs fs' : FilterState) :
  Spec.adds_predicate fs fs' ->
  List.length (filteredJobs jobs fs') <= List.length (filteredJobs jobs fs).
Proof.
  intros H. apply filter_length_mono.
  intros job. now apply adds_predicate_passes.
Qed.

(** The search test, field by field, in terms of the case-blind search. *)
Lemma matchesSearch_iff (job : Job) (q : string) :
  q <> "" ->
  matchesSearch q job = true <->
  Spec.ci_substring q (Job.title job) \/
  Spec.ci_substring q (Job.company job) \/
  Spec.ci_substring q (Job.description job) \/
  Exists (Spec.ci_substring q) (Job.tags job).
Proof.
  intros Hq. apply truthy_iff in Hq.
  unfold matchesSearch. rewrite Hq. simpl.
  rewrite !orb_true_iff, !includes_lower_iff, existsb_exists, Exists_exists.
  split.
  - intros [[[H | H] | H] | (tag & Hin & H)]; auto.
    right; right; right. exists tag. now rewrite <- includes_lower_iff.
  - intros [H | [H | [H | (tag & Hin & H)]]]; auto.
    right. exists tag. now rewrite includes_lower_iff.
Qed.

(** C9 (as the code has it): for a non-empty query the search predicate
    passes a record exactly when the lower-case form of the query occurs
    in the lower-case form of its title, its company, its description or
    one of its tags.  On strings of code units below 256, where that form
    is taken letter by letter, this is: the query occurs, letter case
    aside, in one of the four fields; so the query REACT passes every
    record that carries the tag React. *)
Theorem matchesSearch_case_insensitive (job : Job) (q : string) :
  q <> "" ->
  (matchesSearch q job = true <->
   Spec.ci_substring q (Job.title job) \/
   Spec.ci_substring q (Job.company job) \/
   Spec.ci_substring q (Job.description job) \/
   Exists (Spec.ci_substring q) (Job.tags job)) /\
  (q = "REACT" -> In "React" (Job.tags job) -> matchesSearch q job = true) /\
  Unicode.matchesSearch Unicode.latinGreek (JSON.units q) (Unicode.ofJob job)
  = matchesSearch q job /\
  (forall T wq wjob,
     wq <> [] ->
     Unicode.matchesSearch T wq wjob = true <->
     Unicode.includes (Unicode.toLowerCase T (Unicode.title wjob))
                      (Unicode.toLowerCase T wq) = true \/
     Unicode.includes (Unicode.toLowerCase T (Unicode.company wjob))
                      (Unicode.toLowerCase T wq) = true \/
     Unicode.includes (Unicode.toLowerCase T (Unicode.description wjob))
                      (Unicode.toLowerCase T wq) = true \/
     Exists (fun tag => Unicode.includes (Unicode.toLowerCase T tag)
                                         (Unicode.toLowerCase T wq) = true)
            (Unicode.tags wjob)).
Proof.
  intros Hq. split; [now apply matchesSearch_iff|]. split; [|split].
  - intros -> Hin. apply matchesSearch_iff; [discriminate|].
    right; right; right. apply Exists_exists. exists "React". split; [exact Hin|].
    exists "", "React", "". split; reflexivity.
  - apply matchesSearch_units.
  - intros T wq wjob. apply matchesSearch_unicode_iff.
Qed.

Lemma matchesSearch_case_insensitive_witness :
  "REACT" <> "" /\
  (matchesSearch "REACT" Sample.job_react = true <->
   Spec.ci_substring "REACT" (Job.title Sample.job_react) \/
   Spec.ci_substring "REACT" (Job.company Sample.job_react) \/
   Spec.ci_substring "REACT" (Job.description Sample.job_react) \/
   Exists (Spec.ci_substring "REACT") (Job.tags Sample.job_react)) /\
  matchesSearch "REACT" Sample.job_react = true.
Proof.
  assert (Hq : "REACT" <> "") by discriminate.
  split; [exact Hq|].
  destruct (matchesSearch_case_insensitive Sample.job_react "REACT" Hq)
    as (Hiff & Hreact & _).
  split; [exact Hiff|].
  apply Hreact; [reflexivity | left; reflexivity].
Defined.

(** C9 (as stated) fails beyond the code units below 256: the query
    U+03A3, a capital sigma, stands as it is at the end of the title
    U+0391 U+03A3, and the search test turns the record down; the title is
    lower-cased to U+03B1 U+03C2, with a final sigma, the query to the
    sigma U+03C3. *)
Lemma matchesSearch_final_sigma :
  Unicode.includes [913%N; 931%N] [931%N] = true /\
  Unicode.toLowerCase Unicode.latinGreek [913%N; 931%N] = [945%N; 962%N] /\
  Unicode.toLowerCase Unicode.latinGreek [931%N] = [963%N] /\
  Unicode.matchesSearch Unicode.latinGreek [931%N]
    (Unicode.mkSearched [913%N; 931%N] [] [] []) = false.
Proof. repeat split. Qed.

Lemma filteredJobs_monotonic_witness :
  Spec.adds_predicate (mkFilters "" "" "" "" "") (mkFilters "" "" "" "" "70000") /\
  List.length (filteredJobs [Sample.job_react; Sample.job_max_only]
                 (mkFilters "" "" "" "" "70000")) <=
  List.length (filteredJobs [Sample.job_react; Sample.job_max_only]
                 (mkFilters "" "" "" "" "")).
Proof.
  split; [constructor|].
  apply (filteredJobs_monotonic [Sample.job_react; Sample.job_max_only]
           (mkFilters "" "" "" "" "") (mkFilters "" "" "" "" "70000")).
  constructor.
Defined.




(** The threshold [0] is not one the board can set; on it a record whose
    [salaryMin] is [0] is turned down, its [salaryMin] counting as absent. *)
Example matchesSalary_zero_on_zero :
  matchesSalary "0" Sample.job_unpaid = false /\
  Spec.salary_rule "0" Sample.job_unpaid.
Proof. split; [reflexivity|]. exists (JS.Num 0). split; reflexivity. Qed.

End FilterEngine.

(* ------------------------------------------------------------------ *)
(** ** Loading the records                                             *)
(* ------------------------------------------------------------------ *)

Section Loading.

Import App.

Lemma parseTags_throws (tags : option string) (e : string) :
  parseTags tags = Throw e -> e = "SyntaxError".
Proof.
  destruct tags as [s|]; simpl; [|discriminate].
  destruct (JS.truthy s); [|discriminate].
  destruct (JSON.parse s); [discriminate | congruence].
Qed.

Lemma formatJob_throws (job : RawJob.t) (e : string) :
  parseTags (RawJob.tags job) = Throw e -> formatJob job = Throw e.
Proof. unfold formatJob. now intros ->. Qed.

Lemma formatJobs_throws_only (data : list RawJob.t) (e : string) :
  formatJobs data = Throw e -> e = "SyntaxError".
Proof.
  induction data as [|job rest IH]; simpl; [discriminate|].
  unfold formatJob.
  destruct (parseTags (RawJob.tags job)) as [v|e'] eqn:Hp.
  - destruct (formatJobs rest) as [js|e'']; [discriminate|].
    intros H. injection H as <-. now apply IH.
  - intros H. injection H as <-. now apply parseTags_throws in Hp.
Qed.

(** One row whose tags do not parse makes the whole map throw. *)
Lemma formatJobs_throws (data : list RawJob.t) (job : RawJob.t) (e : string) :
  In job data -> parseTags (RawJob.tags job) = Throw e ->
  formatJobs data = Throw "SyntaxError".
Proof.
  induction data as [|j rest IH]; simpl; [contradiction|].
  intros [-> | Hin] Hp.
  - rewrite (formatJob_throws _ _ Hp). now rewrite (parseTags_throws _ _ Hp).
  - destruct (formatJob j) as [fj|e'] eqn:Hj.
    + now rewrite (IH Hin Hp).
    + unfold formatJob in Hj.
      destruct (parseTags (RawJob.tags j)) as [v|e''] eqn:Hpj; [discriminate|].
      injection Hj as <-. now rewrite (parseTags_throws _ _ Hpj).
Qed.

(** C2 (as the code has it): a missing or empty [tags] column gives the
    empty sequence; a non-empty one is handed to [JSON.parse], whose value
    is taken as it is; when [JSON.parse] throws, so does the
    deserialization, [loadJobs] catches it for the whole load, reports
    the failure and leaves the records as they were. *)
Theorem parseTags_missing_or_parsed (s : string) :
  s <> "" ->
  parseTags None = Return (JSON.Array []) /\
  parseTags (Some "") = Return (JSON.Array []) /\
  (forall v, JSON.parse s = Some v -> parseTags (Some s) = Return v) /\
  (JSON.parse s = None ->
   parseTags (Some s) = Throw "SyntaxError" /\
   forall data job jobs,
     In job data -> RawJob.tags job = Some s ->
     loadJobs (Return data) jobs = (jobs, loadFailed "SyntaxError")).
Proof.
  intros Hs. apply truthy_iff in Hs.
  assert (Hthrow : JSON.parse s = None -> parseTags (Some s) = Throw "SyntaxError")
    by (intros H; simpl; now rewrite Hs, H).
  repeat split; auto.
  - intros v H. simpl. now rewrite Hs, H.
  - intros data job jobs Hin Htags. unfold loadJobs.
    rewrite (formatJobs_throws data job "SyntaxError" Hin); [reflexivity|].
    rewrite Htags. auto.
Qed.

Lemma parseTags_missing_or_parsed_witness :
  "react,node" <> "" /\
  parseTags (Some "react,node") = Throw "SyntaxError" /\
  loadJobs (Return [Sample.row "job_1" None; Sample.row "job_2" (Some "react,node")]) []
  = ([], loadFailed "SyntaxError").
Proof.
  assert (Hs : "react,node" <> "") by discriminate.
  split; [exact Hs|].
  destruct (parseTags_missing_or_parsed "react,node" Hs) as (_ & _ & _ & H).
  destruct (H eq_refl) as [Hthrow Hload].
  split; [exact Hthrow|].
  apply (Hload _ (Sample.row "job_2" (Some "react,node"))).
  - right; left; reflexivity.
  - reflexivity.
Defined.

(** C2 (as stated) fails on a [tags] column that is not JSON: its
    deserialization ends in an error, not in a value. *)
Lemma parseTags_raises :
  ~ (exists v, parseTags (Some "react,node") = Return v).
Proof. intros [v H]. vm_compute in H. discriminate H. Qed.

End Loading.

(* ------------------------------------------------------------------ *)
(** ** The saved-job toggle                                            *)
(* ------------------------------------------------------------------ *)

Section Reconciler.

Import App.
Import JobBoard.

Lemma isJobSaved_find (marks : list SavedJob) (jobId : string) :
  isJobSaved marks jobId = false <->
  find (fun save => SavedJob.jobId save =? jobId) marks = None.
Proof.
  unfold isJobSaved.
  induction marks as [|s l IH]; simpl; [tauto|].
  destruct (SavedJob.jobId s =? jobId); simpl; [split; discriminate | exact IH].
Qed.

Lemma isJobSaved_iff (marks : list SavedJob) (jobId : string) :
  isJobSaved marks jobId = true <->
  exists s, In s marks /\ SavedJob.jobId s = jobId.
Proof.
  unfold isJobSaved. rewrite existsb_exists.
  split; intros (s & Hin & H); exists s; split; auto; now apply String.eqb_eq.
Qed.

Lemma isJobSaved_snoc (marks : list SavedJob) (s : SavedJob) :
  isJobSaved (marks ++ [s]) (SavedJob.jobId s) = true.
Proof.
  apply isJobSaved_iff. exists s. split; [|reflexivity].
  apply in_or_app. right. now left.
Qed.

Lemma isJobSaved_app (marks : list SavedJob) (s : SavedJob) (jobId : string) :
  isJobSaved (marks ++ [s]) jobId =
  isJobSaved marks jobId || (SavedJob.jobId s =? jobId).
Proof. unfold isJobSaved. rewrite existsb_app. simpl. now rewrite orb_false_r. Qed.

Lemma nth_error_snoc {A : Type} (l : list A) (x : A) :
  nth_error (l ++ [x]) (List.length l) = Some x.
Proof. induction l as [|y l IH]; simpl; auto. Qed.

(** What a click does when somebody is signed in. *)
Lemma step_SaveJob_signed_in (st : State) (u : User) (jobId fresh : string) :
  user st = Some u ->
  exists call,
    handleSaveJob (Some u) (savedJobs st) jobId fresh = Some call /\
    step st (SaveJob jobId fresh) =
    Some (mkState (user st) (jobs st) (savedJobs st) (inflight st ++ [call])
            (signals st)).
Proof.
  intros Hu. unfold step, handleSaveJob. rewrite Hu.
  destruct (find (fun save => SavedJob.jobId save =? jobId) (savedJobs st))
    as [existingSave|]; eexists; split; reflexivity.
Qed.

(** C1 (as the code has it): for a signed-in user and a record not yet
    saved, the click sends the create with the fresh identifier and leaves
    the saved set as it is, so [isJobSaved] is still false while the call
    is in flight.  When the create succeeds, the mark the store answers
    with, under the identifier the store gave it, is appended to the saved
    set; [isJobSaved] becomes true exactly when that mark is on the record
    asked for, as the answer of the store to a create is. *)
Theorem handleSaveJob_saves_on_confirmation
    (st : State) (u : User) (jobId fresh : string) :
  user st = Some u ->
  isJobSaved (savedJobs st) jobId = false ->
  exists st1,
    step st (SaveJob jobId fresh) = Some st1 /\
    inflight st1 = (inflight st ++ [savedJobs_create fresh jobId (user_id u)])%list /\
    savedJobs st1 = savedJobs st /\
    isJobSaved (savedJobs st1) jobId = false /\
    forall row,
      exists st2,
        step st1 (Settled (List.length (inflight st)) (Return (newSave row)))
        = Some st2 /\
        savedJobs st2 = (savedJobs st ++ [formatSavedJob row])%list /\
        (isJobSaved (savedJobs st2) jobId = true <->
         RawSavedJob.job_id row = jobId).
Proof.
  intros Hu Hun.
  pose proof Hun as Hfind. apply isJobSaved_find in Hfind.
  eexists. split.
  - unfold step, handleSaveJob. rewrite Hu, Hfind. reflexivity.
  - simpl. repeat split; auto.
    intros row. eexists. split.
    + unfold step. simpl. rewrite nth_error_snoc. simpl. reflexivity.
    + cbn [savedJobs]. split; [reflexivity|].
      rewrite isJobSaved_app, Hun. simpl. apply String.eqb_eq.
Qed.

Lemma handleSaveJob_saves_on_confirmation_witness :
  exists st1,
    step Sample.signed_in (SaveJob "job_1" "save_0") = Some st1 /\
    inflight st1 = [savedJobs_create "save_0" "job_1" "user_1"] /\
    savedJobs st1 = [] /\
    isJobSaved (savedJobs st1) "job_1" = false /\
    forall row,
      exists st2,
        step st1 (Settled 0 (Return (newSave row))) = Some st2 /\
        savedJobs st2 = [formatSavedJob row] /\
        (isJobSaved (savedJobs st2) "job_1" = true <->
         RawSavedJob.job_id row = "job_1").
Proof.
  apply (handleSaveJob_saves_on_confirmation Sample.signed_in Sample.me
           "job_1" "save_0"); reflexivity.
Defined.

(** C1 (as stated) fails: right after the click, with the create still in
    flight, the record does not count as saved. *)
Lemma handleSaveJob_not_optimistic :
  ~ (exists st1,
       step Sample.signed_in (SaveJob "job_1" "save_0") = Some st1 /\
       isJobSaved (savedJobs st1) "job_1" = true).
Proof.
  intros (st1 & Hstep & Hsaved). vm_compute in Hstep.
  injection Hstep as <-. vm_compute in Hsaved. discriminate Hsaved.
Qed.

(** C3 (as the code has it): with nobody signed in [handleSaveJob] returns
    at once, without a value and without a notification; the click leaves
    the whole state as it was: the saved set is unchanged and no call goes
    to the store. *)
Theorem handleSaveJob_signed_out (st : State) (jobId fresh : string) :
  user st = None ->
  handleSaveJob (user st) (savedJobs st) jobId fresh = None /\
  step st (SaveJob jobId fresh) = Some st.
Proof.
  intros Hu. unfold step. rewrite Hu. split; reflexivity.
Qed.

Lemma handleSaveJob_signed_out_witness :
  handleSaveJob None [Sample.mark] "job_1" "save_0" = None /\
  step (mkState None [] [Sample.mark] [] []) (SaveJob "job_1" "save_0")
  = Some (mkState None [] [Sample.mark] [] []).
Proof.
  apply (handleSaveJob_signed_out (mkState None [] [Sample.mark] [] [])
           "job_1" "save_0").
  reflexivity.
Defined.

(** C3 (as stated) fails: with nobody signed in the click signals nothing,
    so no error of any kind comes back from it. *)
Lemma handleSaveJob_signed_out_silent :
  ~ (exists st',
       step (mkState None [] [Sample.mark] [] []) (SaveJob "job_1" "save_0")
       = Some st' /\
       signals st' <> signals (mkState None [] [Sample.mark] [] [])).
Proof.
  intros (st' & Hstep & Hsig). vm_compute in Hstep.
  injection Hstep as <-. now apply Hsig.
Qed.

(** *** One mark for each user and record *)

Lemma unique_pairs_filter (p : SavedJob -> bool) (marks : list SavedJob) :
  Spec.unique_pairs marks -> Spec.unique_pairs (filter p marks).
Proof.
  unfold Spec.unique_pairs.
  induction marks as [|s l IH]; simpl; [auto|].
  intros H. apply NoDup_cons_iff in H as [Hnotin Hl].
  destruct (p s); simpl; [|now apply IH].
  constructor; [|now apply IH].
  intros Hin. apply Hnotin.
  apply in_map_iff in Hin as (t & Heq & Ht).
  apply in_map_iff. exists t. split; [exact Heq|].
  now apply filter_In in Ht.
Qed.

Lemma unique_pairs_snoc (marks : list SavedJob) (s : SavedJob) :
  Spec.unique_pairs marks ->
  isJobSaved marks (SavedJob.jobId s) = false ->
  Spec.unique_pairs (marks ++ [s]).
Proof.
  unfold Spec.unique_pairs. intros Hm Hs. rewrite map_app.
  apply NoDup_app; [exact Hm | repeat constructor; auto |].
  intros pair Hin [<- | []].
  apply in_map_iff in Hin as (t & Heq & Ht).
  assert (Hsaved : isJobSaved marks (SavedJob.jobId s) = true).
  { apply isJobSaved_iff. exists t. split; [exact Ht | congruence]. }
  congruence.
Qed.

(** C5 (as the code has it): loading the saved set puts the rows of the
    store in local state one for one, duplicates included; a toggle whose
    call settles before anything else touches the saved set keeps a set
    with at most one mark for each user and record in that shape, the
    store answering a create with a mark for the record asked for. *)
Theorem toggle_keeps_unique_pairs
    (st st1 st2 : State) (jobId fresh : string) (r : completion Payload) :
  Spec.unique_pairs (savedJobs st) ->
  step st (SaveJob jobId fresh) = Some st1 ->
  step st1 (Settled (List.length (inflight st)) r) = Some st2 ->
  (forall row, r = Return (newSave row) -> RawSavedJob.job_id row = jobId) ->
  Spec.unique_pairs (savedJobs st2) /\
  (forall rows prev,
     fst (loadSavedJobs (Return rows) prev) = map formatSavedJob rows).
Proof.
  intros Huniq Hclick Hsettle Hecho. split; [|reflexivity].
  destruct (user st) as [u|] eqn:Hu.
  - destruct (step_SaveJob_signed_in st u jobId fresh Hu) as (call & Hcall & Hst1).
    rewrite Hst1 in Hclick. injection Hclick as <-.
    unfold step in Hsettle. simpl in Hsettle.
    rewrite nth_error_snoc in Hsettle.
    unfold handleSaveJob in Hcall.
    destruct (find (fun save => SavedJob.jobId save =? jobId) (savedJobs st))
      as [existingSave|] eqn:Hfind; injection Hcall as <-.
    + destruct r as [pl|e]; simpl in Hsettle; injection Hsettle as <-; simpl.
      * now apply unique_pairs_filter.
      * exact Huniq.
    + destruct r as [[| | |row]|e]; simpl in Hsettle; try discriminate;
        injection Hsettle as <-; simpl; [|exact Huniq].
      apply unique_pairs_snoc; [exact Huniq|].
      simpl. rewrite (Hecho row eq_refl). now apply isJobSaved_find.
  - unfold step in Hclick. rewrite Hu in Hclick. simpl in Hclick.
    injection Hclick as <-. unfold step in Hsettle.
    assert (Hnone : nth_error (inflight st) (List.length (inflight st)) = None)
      by (apply nth_error_None; lia).
    rewrite Hnone in Hsettle. discriminate.
Qed.

Lemma toggle_keeps_unique_pairs_witness :
  Spec.unique_pairs (savedJobs Sample.signed_in) /\
  Spec.unique_pairs [Sample.mark] /\
  (forall rows prev,
     fst (loadSavedJobs (Return rows) prev) = map formatSavedJob rows).
Proof.
  assert (H0 : Spec.unique_pairs (savedJobs Sample.signed_in)) by constructor.
  split; [exact H0|].
  apply (toggle_keeps_unique_pairs Sample.signed_in
           (mkState (Some Sample.me) [] []
              [savedJobs_create "save_0" "job_1" "user_1"] [])
           (mkState (Some Sample.me) [] [Sample.mark] []
              [toast "Job saved" "Job added to saved jobs" None])
           "job_1" "save_0" (Return (newSave Sample.mark_row)));
    [exact H0 | reflexivity | reflexivity |].
  intros row Hrow. injection Hrow as <-. reflexivity.
Defined.

(** C5 (as stated) fails: two rows of the store for one user and one
    record both end up in the saved set. *)
Lemma loadSavedJobs_keeps_duplicates :
  ~ Spec.unique_pairs
      (fst (loadSavedJobs (Return [Sample.mark_row; Sample.mark_row_again]) [])).
Proof.
  unfold Spec.unique_pairs. simpl. intros H.
  apply NoDup_cons_iff in H as [Hnotin _]. apply Hnotin. now left.
Qed.

(** Two clicks on one record before the first create has settled send two
    creates, and both marks end up in the saved set. *)
Example double_click_saves_twice :
  exists st,
    run Sample.signed_in
      [SaveJob "job_1" "save_0"; SaveJob "job_1" "save_1";
       Settled 0 (Return (newSave Sample.mark_row));
       Settled 0 (Return (newSave Sample.mark_row_again))] = Some st /\
    savedJobs st =
      [formatSavedJob Sample.mark_row; formatSavedJob Sample.mark_row_again].
Proof. eexists. split; reflexivity. Qed.

(** *** Failing store calls *)

Lemma settle_Throw (c : StoreCall) (e : string) (st : State) :
  exists sig, settle c (Throw e) st = Some (jobs st, savedJobs st, sig) /\
              sig <> [].
Proof. destruct c; simpl; eexists; split; try reflexivity; discriminate. Qed.

(** C6: a store call that fails leaves local state as it was.  When the
    create or the delete sent by a toggle fails, the saved set is the one
    from before the toggle, so that a saved record still counts as saved
    after a failed delete, and the failure is notified; whichever call in
    flight fails, records and saved set are unchanged; a load of the
    records that fails, in the store or in the deserialization, keeps the
    records of the last successful load. *)
Theorem failed_call_keeps_state
    (st : State) (u : User) (jobId fresh e : string) :
  user st = Some u ->
  (exists st1 st2,
     step st (SaveJob jobId fresh) = Some st1 /\
     step st1 (Settled (List.length (inflight st)) (Throw e)) = Some st2 /\
     savedJobs st2 = savedJobs st /\
     (isJobSaved (savedJobs st) jobId = true ->
      isJobSaved (savedJobs st2) jobId = true) /\
     signals st2 = (signals st ++ saveFailed e)%list) /\
  (forall n c,
     nth_error (inflight st) n = Some c ->
     exists st', step st (Settled n (Throw e)) = Some st' /\
                 jobs st' = jobs st /\ savedJobs st' = savedJobs st) /\
  (forall prev, loadJobs (Throw e) prev = (prev, loadFailed e)) /\
  (forall rows prev,
     formatJobs rows = Throw e -> loadJobs (Return rows) prev = (prev, loadFailed e)).
Proof.
  intros Hu. split; [|split; [|split]].
  - destruct (step_SaveJob_signed_in st u jobId fresh Hu) as (call & Hcall & Hst1).
    eexists. eexists. split; [exact Hst1|].
    unfold step. simpl. rewrite nth_error_snoc.
    unfold handleSaveJob in Hcall.
    destruct (find (fun save => SavedJob.jobId save =? jobId) (savedJobs st));
      injection Hcall as <-; simpl; repeat split; auto.
  - intros n c Hn. unfold step. rewrite Hn.
    destruct (settle_Throw c e st) as (sig & -> & _).
    eexists. repeat split.
  - reflexivity.
  - intros rows prev H. unfold loadJobs. now rewrite H.
Qed.

Lemma failed_call_keeps_state_witness :
  exists st1 st2,
    step Sample.signed_in_saved (SaveJob "job_1" "save_0") = Some st1 /\
    inflight st1 = [savedJobs_delete "save_1"] /\
    step st1 (Settled 0 (Throw "offline")) = Some st2 /\
    savedJobs st2 = [Sample.mark] /\
    isJobSaved (savedJobs st2) "job_1" = true.
Proof.
  destruct (failed_call_keeps_state Sample.signed_in_saved Sample.me
              "job_1" "save_0" "offline" eq_refl)
    as ((st1 & st2 & H1 & H2 & Hsaved & Hstill & _) & _).
  exists st1, st2.
  assert (Hin : inflight st1 = [savedJobs_delete "save_1"])
    by (vm_compute in H1; injection H1 as <-; reflexivity).
  repeat split; auto.
Defined.

(** *** Whose marks *)

Lemma isJobSaved_own (uid : string) (marks : list SavedJob) (jobId : string) :
  (forall s, In s marks -> SavedJob.userId s <> uid -> SavedJob.jobId s <> jobId) ->
  isJobSaved marks jobId = isJobSaved (Spec.own uid marks) jobId.
Proof.
  intros Hown. apply eq_true_iff_eq. rewrite !isJobSaved_iff. split.
  - intros (s & Hs & Hj). exists s. split; [|exact Hj].
    apply filter_In. split; [exact Hs|].
    destruct (SavedJob.userId s =? uid) eqn:Hu; [reflexivity|].
    apply String.eqb_neq in Hu. now destruct (Hown s Hs Hu).
  - intros (s & Hs & Hj). apply filter_In in Hs as [Hs _]. now exists s.
Qed.

(** C10 (as the code has it): [isJobSaved] and [handleSaveJob] look at the
    record of each mark in the saved set and never at its user: a record
    counts as saved as soon as some mark of the set, of whatever user, is
    on it.  For a record that no mark of another user in the set is on,
    [isJobSaved] is a function of the marks of the current user alone:
    it has the same value on the whole set and on the marks of the current
    user, hence on two sets with the same marks of the current user; and
    the mark that [handleSaveJob] asks the store to delete is one of the
    current user. *)
Theorem saved_view_of_own_marks
    (u : User) (marks1 marks2 : list SavedJob) (jobId fresh : string) :
  (forall s, In s marks1 -> SavedJob.userId s <> user_id u ->
             SavedJob.jobId s <> jobId) ->
  (forall s, In s marks2 -> SavedJob.userId s <> user_id u ->
             SavedJob.jobId s <> jobId) ->
  Spec.own (user_id u) marks1 = Spec.own (user_id u) marks2 ->
  isJobSaved marks1 jobId = isJobSaved marks2 jobId /\
  isJobSaved marks1 jobId = isJobSaved (Spec.own (user_id u) marks1) jobId /\
  (forall id,
     handleSaveJob (Some u) marks1 jobId fresh = Some (savedJobs_delete id) ->
     exists s, In s marks1 /\ SavedJob.id s = id /\
               SavedJob.jobId s = jobId /\ SavedJob.userId s = user_id u) /\
  (isJobSaved marks1 jobId = true <->
   exists s, In s marks1 /\ SavedJob.jobId s = jobId).
Proof.
  intros Hown1 Hown2 Hsame. split; [|split; [|split]].
  - rewrite (isJobSaved_own (user_id u) marks1 jobId Hown1).
    rewrite (isJobSaved_own (user_id u) marks2 jobId Hown2).
    now rewrite Hsame.
  - now apply isJobSaved_own.
  - intros id H. unfold handleSaveJob in H.
    destruct (find (fun save => SavedJob.jobId save =? jobId) marks1)
      as [existingSave|] eqn:Hfind; [|discriminate].
    injection H as <-. apply find_some in Hfind as [Hin Hjob].
    apply String.eqb_eq in Hjob.
    exists existingSave. repeat split; auto.
    destruct (string_dec (SavedJob.userId existingSave) (user_id u)) as [|Hne];
      [assumption|].
    now destruct (Hown1 existingSave Hin Hne).
  - apply isJobSaved_iff.
Qed.

Lemma saved_view_of_own_marks_witness :
  isJobSaved
    [Sample.mark; SavedJob.mk "save_8" "job_7" "user_2" "2024-01-06"] "job_1"
  = isJobSaved [Sample.mark] "job_1" /\
  exists s,
    In s [Sample.mark; SavedJob.mk "save_8" "job_7" "user_2" "2024-01-06"] /\
    SavedJob.id s = "save_1" /\ SavedJob.jobId s = "job_1" /\
    SavedJob.userId s = "user_1".
Proof.
  destruct (saved_view_of_own_marks Sample.me
              [Sample.mark; SavedJob.mk "save_8" "job_7" "user_2" "2024-01-06"]
              [Sample.mark] "job_1" "save_0")
    as (Hview & _ & Hdel & _).
  - intros s [<- | [<- | []]] Hu; [now destruct Hu | discriminate].
  - intros s [<- | []] Hu. now destruct Hu.
  - reflexivity.
  - split; [exact Hview|]. apply (Hdel "save_1"). reflexivity.
Defined.

(** C10 (as stated) fails: two saved sets with the same marks of [user_1],
    one of them holding a mark of another user on [job_1], give two
    answers to [isJobSaved]. *)
Lemma isJobSaved_counts_other_users :
  ~ (Spec.own "user_1" [] = Spec.own "user_1" [Sample.mark_of_other] ->
     isJobSaved [] "job_1" = isJobSaved [Sample.mark_of_other] "job_1").
Proof. intros H. specialize (H eq_refl). vm_compute in H. discriminate H. Qed.

(** With that mark in the saved set, a click of [user_1] on [job_1] asks
    the store to delete the mark of the other user. *)
Example handleSaveJob_deletes_other_users_mark :
  handleSaveJob (Some Sample.me) [Sample.mark_of_other] "job_1" "save_0"
  = Some (savedJobs_delete "save_9").
Proof. reflexivity. Qed.

End Reconciler.

(* ------------------------------------------------------------------ *)
(** ** The lists behind the selects                                    *)
(* ------------------------------------------------------------------ *)

Section DerivedLists.

Import JobBoard.
Import Spec.

Lemma str_lt_trans (a b c : string) : str_lt a b -> str_lt b c -> str_lt a c.
Proof.
  unfold str_lt, String.ltb. intros Hab Hbc.
  destruct (a ?= b) eqn:H1; try discriminate.
  destruct (b ?= c) eqn:H2; try discriminate.
  apply String_as_OT.cmp_lt in H1, H2.
  pose proof (String_as_OT.lt_trans _ _ _ H1 H2) as H3.
  apply String_as_OT.cmp_lt in H3. unfold String_as_OT.cmp in H3. now rewrite H3.
Qed.

Lemma str_lt_irrefl (a : string) : ~ str_lt a a.
Proof.
  unfold str_lt, String.ltb. intros H.
  destruct (a ?= a) eqn:H1; try discriminate.
  apply String_as_OT.cmp_lt in H1. apply String_as_OT.lt_not_eq in H1.
  now apply H1.
Qed.

Lemma leb_neq_lt (a b : string) : (a <=? b) = true -> a <> b -> str_lt a b.
Proof.
  unfold str_lt, String.leb, String.ltb. intros Hle Hne.
  destruct (a ?= b) eqn:H; try discriminate; [|reflexivity].
  now apply String.compare_eq_iff in H.
Qed.

Lemma leb_false_lt (a b : string) : (a <=? b) = false -> str_lt b a.
Proof.
  unfold str_lt, String.leb, String.ltb. rewrite (String.compare_antisym b a).
  destruct (a ?= b); simpl; congruence.
Qed.

Lemma arrayIncludes_iff (arr : list string) (x : string) :
  JS.arrayIncludes arr x = true <-> In x arr.
Proof.
  unfold JS.arrayIncludes. rewrite existsb_exists. split.
  - intros (y & Hin & Heq). apply String.eqb_eq in Heq. now subst.
  - intros Hin. exists x. split; [exact Hin | apply String.eqb_refl].
Qed.

Lemma setAdd_fold_In (xs seen : list string) (x : string) :
  In x (fold_left JS.setAdd xs seen) <-> In x seen \/ In x xs.
Proof.
  revert seen; induction xs as [|y xs IH]; intros seen; simpl; [tauto|].
  rewrite IH. unfold JS.setAdd.
  destruct (JS.arrayIncludes seen y) eqn:Hy.
  - apply arrayIncludes_iff in Hy. split; [tauto|].
    intros [H | [<- | H]]; auto.
  - rewrite in_app_iff. simpl. tauto.
Qed.

Lemma setAdd_fold_NoDup (xs seen : list string) :
  NoDup seen -> NoDup (fold_left JS.setAdd xs seen).
Proof.
  revert seen; induction xs as [|y xs IH]; intros seen Hseen; simpl; [exact Hseen|].
  apply IH. unfold JS.setAdd.
  destruct (JS.arrayIncludes seen y) eqn:Hy; [exact Hseen|].
  apply NoDup_app; [exact Hseen | repeat constructor; auto |].
  intros a Ha [<- | []].
  apply arrayIncludes_iff in Ha. congruence.
Qed.

Lemma uniq_In (xs : list string) (x : string) : In x (JS.uniq xs) <-> In x xs.
Proof. unfold JS.uniq. rewrite setAdd_fold_In. simpl. tauto. Qed.

Lemma uniq_NoDup (xs : list string) : NoDup (JS.uniq xs).
Proof. apply setAdd_fold_NoDup. constructor. Qed.

Lemma insert_perm (x : string) (l : list string) :
  Permutation (JS.insert x l) (x :: l).
Proof.
  induction l as [|y l IH]; simpl; [reflexivity|].
  destruct (x <=? y); [reflexivity|].
  rewrite IH. apply perm_swap.
Qed.

Lemma sort_perm (l : list string) : Permutation (JS.sort l) l.
Proof.
  induction l as [|x l IH]; simpl; [reflexivity|].
  rewrite insert_perm. now constructor.
Qed.

(** Inserting a string that is not there keeps a strictly ascending list
    strictly ascending. *)
Lemma insert_sorted (x : string) (l : list string) :
  ~ In x l -> Sorted str_lt l -> Sorted str_lt (JS.insert x l).
Proof.
  intros Hx Hl. induction Hl as [|y l Hl IH Hhd]; simpl.
  - repeat constructor.
  - destruct (x <=? y) eqn:Hle.
    + constructor; [now constructor|].
      constructor. apply leb_neq_lt; [exact Hle|].
      intros ->. apply Hx. now left.
    + constructor.
      * apply IH. intros H. apply Hx. now right.
      * apply leb_false_lt in Hle.
        destruct Hhd as [|z l' Hz]; simpl; [now constructor|].
        destruct (x <=? z); now constructor.
Qed.

Lemma sort_sorted (l : list string) : NoDup l -> Sorted str_lt (JS.sort l).
Proof.
  induction 1 as [|x l Hx Hl IH]; simpl; [constructor|].
  apply insert_sorted; [|exact IH].
  intros H. apply Hx. now apply (Permutation_in _ (sort_perm l)).
Qed.

Lemma sort_uniq_ascending (xs : list string) :
  StronglySorted str_lt (JS.sort (JS.uniq xs)).
Proof.
  apply Sorted_StronglySorted; [exact str_lt_trans|].
  apply sort_sorted, uniq_NoDup.
Qed.

Lemma sort_uniq_In (xs : list string) (x : string) :
  In x (JS.sort (JS.uniq xs)) <-> In x xs.
Proof.
  split; intros H.
  - apply uniq_In. now apply (Permutation_in _ (sort_perm (JS.uniq xs))).
  - apply (Permutation_in _ (Permutation_sym (sort_perm (JS.uniq xs)))).
    now apply uniq_In.
Qed.

Lemma ascending_NoDup (l : list string) : StronglySorted str_lt l -> NoDup l.
Proof.
  induction 1 as [|x l Hl IH Hall]; constructor; [|exact IH].
  intros Hin. rewrite Forall_forall in Hall.
  now apply (str_lt_irrefl x), Hall.
Qed.

(** Two strictly ascending lists with the same elements are equal. *)
Lemma ascending_unique (l1 l2 : list string) :
  StronglySorted str_lt l1 -> StronglySorted str_lt l2 ->
  (forall x, In x l1 <-> In x l2) -> l1 = l2.
Proof.
  intros H1; revert l2; induction H1 as [|a l1 Hl1 IH Ha]; intros l2 H2 Hsame.
  - destruct l2 as [|b l2]; [reflexivity|].
    exfalso. apply (Hsame b). now left.
  - destruct H2 as [|b l2 Hl2 Hb].
    + exfalso. apply (Hsame a). now left.
    + rewrite Forall_forall in Ha, Hb.
      assert (Hab : a = b).
      { destruct (proj1 (Hsame a) (or_introl eq_refl)) as [Heq | Hin]; [auto|].
        destruct (proj2 (Hsame b) (or_introl eq_refl)) as [Heq | Hin']; [auto|].
        exfalso. apply (str_lt_irrefl a).
        apply (str_lt_trans a b a); auto. }
      subst b. f_equal. apply IH; [exact Hl2|].
      intros x. split; intros Hx.
      * destruct (proj1 (Hsame x) (or_intror Hx)) as [<- | Hin]; [|exact Hin].
        exfalso. now apply (str_lt_irrefl a), Ha.
      * destruct (proj2 (Hsame x) (or_intror Hx)) as [<- | Hin]; [|exact Hin].
        exfalso. now apply (str_lt_irrefl a), Hb.
Qed.

(** X1: each of the three lists offered in the selects is strictly
    ascending by code units, hence without duplicates, however often a
    value occurs among the records. *)
Theorem select_lists_ascending (jobs : list Job) :
  (StronglySorted str_lt (locations jobs) /\ NoDup (locations jobs)) /\
  (StronglySorted str_lt (employmentTypes jobs) /\ NoDup (employmentTypes jobs)) /\
  (StronglySorted str_lt (experienceLevels jobs) /\ NoDup (experienceLevels jobs)).
Proof.
  unfold locations, employmentTypes, experienceLevels.
  repeat split; try apply sort_uniq_ascending;
    apply ascending_NoDup, sort_uniq_ascending.
Qed.

Lemma locations_In (jobs : list Job) (x : string) :
  In x (locations jobs) <-> exists job, In job jobs /\ Job.location job = x.
Proof.
  unfold locations. rewrite sort_uniq_In, in_map_iff.
  split; intros (job & H1 & H2); exists job; tauto.
Qed.

(** X2: the lists hold exactly the values of the records at hand: a
    location is on offer if and only if some record has it, and likewise
    for employment types and experience levels; with no records the three
    lists are empty. *)
Theorem select_lists_members (jobs : list Job) (x : string) :
  (In x (locations jobs) <-> exists job, In job jobs /\ Job.location job = x) /\
  (In x (employmentTypes jobs) <->
   exists job, In job jobs /\ Job.employmentType job = x) /\
  (In x (experienceLevels jobs) <->
   exists job, In job jobs /\ Job.experienceLevel job = x) /\
  locations [] = [] /\ employmentTypes [] = [] /\ experienceLevels [] = [].
Proof.
  unfold locations, employmentTypes, experienceLevels.
  rewrite !sort_uniq_In, !in_map_iff.
  repeat split; try reflexivity; intros (job & H1 & H2); exists job; tauto.
Qed.

(** X3: the list of locations depends on the set of locations of the
    records only, not on their order or on how often each occurs. *)
Theorem locations_of_same_set (jobs1 jobs2 : list Job) :
  (forall x, In x (map Job.location jobs1) <-> In x (map Job.location jobs2)) ->
  locations jobs1 = locations jobs2.
Proof.
  intros Hsame. unfold locations.
  apply ascending_unique; try apply sort_uniq_ascending.
  intros x. now rewrite !sort_uniq_In.
Qed.

Lemma locations_of_same_set_witness :
  locations [Sample.job_react; Sample.job_max_only; Sample.job_react]
  = locations [Sample.job_max_only; Sample.job_react].
Proof.
  apply (locations_of_same_set
           [Sample.job_react; Sample.job_max_only; Sample.job_react]
           [Sample.job_max_only; Sample.job_react]).
  intros x. simpl. tauto.
Defined.

(** X4: picking a location from the list, with the other filters empty,
    never gives an empty result; when the location picked is not the empty
    string, every record shown is at that location. *)
Theorem offered_location_finds_records (jobs : list Job) (loc : string) :
  In loc (locations jobs) ->
  filteredJobs jobs (mkFilters "" loc "" "" "") <> [] /\
  (loc <> "" ->
   Forall (fun job => Job.location job = loc)
     (filteredJobs jobs (mkFilters "" loc "" "" ""))).
Proof.
  intros Hin. apply locations_In in Hin as (job & Hjob & Hloc).
  split.
  - intros Hnil.
    assert (Hpass : In job (filteredJobs jobs (mkFilters "" loc "" "" ""))).
    { apply filter_In. split; [exact Hjob|].
      unfold passes, matchesLocation. simpl.
      rewrite Hloc, String.eqb_refl. now rewrite orb_true_r. }
    rewrite Hnil in Hpass. contradiction.
  - intros Hne. apply Forall_forall. intros j Hj.
    apply filter_In in Hj as [_ Hp].
    unfold passes, matchesLocation in Hp. simpl in Hp.
    apply truthy_iff in Hne. rewrite Hne in Hp. simpl in Hp.
    rewrite !andb_true_r in Hp. now apply String.eqb_eq.
Qed.

Lemma offered_location_finds_records_witness :
  In "Remote" (locations [Sample.job_react; Sample.job_max_only]) /\
  filteredJobs [Sample.job_react; Sample.job_max_only]
    (mkFilters "" "Remote" "" "" "") <> [].
Proof.
  assert (Hin : In "Remote" (locations [Sample.job_react; Sample.job_max_only]))
    by (left; reflexivity).
  split; [exact Hin|].
  apply (offered_location_finds_records _ "Remote" Hin).
Defined.

End DerivedLists.

(* ------------------------------------------------------------------ *)
(** ** How the predicates combine                                      *)
(* ------------------------------------------------------------------ *)

Section FilterAlgebra.

Import JobBoard.

Lemma filter_twice {A : Type} (p q : A -> bool) (l : list A) :
  filter q (filter p l) = filter (fun x => p x && q x) l.
Proof.
  induction l as [|x l IH]; simpl; [reflexivity|].
  destruct (p x); simpl; [|exact IH].
  destruct (q x); now rewrite IH.
Qed.

Lemma filter_same {A : Type} (p q : A -> bool) (l : list A) :
  (forall x, p x = q x) -> filter p l = filter q l.
Proof.
  intros H. induction l as [|x l IH]; simpl; [reflexivity|].
  now rewrite H, IH.
Qed.

(** X5: the five predicates are independent: filtering on all of them at
    once is filtering on each in turn; two filterings commute, and
    filtering twice on the same state changes nothing more. *)
Theorem filteredJobs_one_by_one (jobs : list Job) (q l t x s : string)
    (f g : FilterState) :
  filteredJobs jobs (mkFilters q l t x s) =
    filteredJobs
      (filteredJobs
         (filteredJobs
            (filteredJobs
               (filteredJobs jobs (mkFilters q "" "" "" ""))
               (mkFilters "" l "" "" ""))
            (mkFilters "" "" t "" ""))
         (mkFilters "" "" "" x ""))
      (mkFilters "" "" "" "" s) /\
  filteredJobs (filteredJobs jobs f) g = filteredJobs (filteredJobs jobs g) f /\
  filteredJobs (filteredJobs jobs f) f = filteredJobs jobs f.
Proof.
  unfold filteredJobs. rewrite !filter_twice. repeat split.
  - apply filter_same. intros job. unfold passes.
    cbn [searchQuery locationFilter employmentTypeFilter
         experienceLevelFilter salaryMinFilter].
    change (matchesSearch "" job) with true.
    change (matchesLocation "" job) with true.
    change (matchesEmploymentType "" job) with true.
    change (matchesExperienceLevel "" job) with true.
    change (matchesSalary "" job) with true.
    destruct (matchesSearch q job), (matchesLocation l job),
      (matchesEmploymentType t job), (matchesExperienceLevel x job),
      (matchesSalary s job); reflexivity.
  - apply filter_same. intros job. apply andb_comm.
  - apply filter_same. intros job. now destruct (passes f job).
Qed.

Lemma toLowerCase_truthy (s : string) : JS.truthy (JS.toLowerCase s) = JS.truthy s.
Proof. now destruct s. Qed.

(** X6: two queries with the same lower-case form give the same result,
    whatever the other filters are. *)
Theorem filteredJobs_query_case (jobs : list Job) (q1 q2 l t x s : string) :
  JS.toLowerCase q1 = JS.toLowerCase q2 ->
  filteredJobs jobs (mkFilters q1 l t x s) = filteredJobs jobs (mkFilters q2 l t x s).
Proof.
  intros Hq. apply filter_same. intros job.
  unfold passes, matchesSearch. simpl.
  rewrite <- (toLowerCase_truthy q1), <- (toLowerCase_truthy q2).
  now rewrite Hq.
Qed.

Lemma filteredJobs_query_case_witness :
  filteredJobs [Sample.job_react; Sample.job_max_only] (mkFilters "REACT" "" "" "" "")
  = filteredJobs [Sample.job_react; Sample.job_max_only] (mkFilters "react" "" "" "" "").
Proof.
  apply (filteredJobs_query_case [Sample.job_react; Sample.job_max_only]
           "REACT" "react" "" "" "" "").
  reflexivity.
Defined.

(** X7: on a card every tag is either one of the at most four badges, which
    are the first tags in order, or counted by the "+n more" badge; that
    badge is there exactly when there are more than four tags. *)
Theorem card_tags_all_accounted (job : Job) :
  (exists rest, Job.tags job = (shownTags job ++ rest)%list /\
                List.length rest =
                match moreTags job with Some n => n | None => 0 end) /\
  List.length (shownTags job) <= 4 /\
  (moreTags job = None <-> List.length (Job.tags job) <= 4) /\
  (forall n, moreTags job = Some n -> 0 < n).
Proof.
  unfold shownTags, moreTags.
  destruct (Nat.ltb 4 (List.length (Job.tags job))) eqn:Hlt.
  - apply Nat.ltb_lt in Hlt. repeat split.
    + exists (skipn 4 (Job.tags job)). split.
      * symmetry. apply firstn_skipn.
      * apply length_skipn.
    + rewrite length_firstn. lia.
    + discriminate.
    + lia.
    + intros n H. injection H as <-. lia.
  - apply Nat.ltb_ge in Hlt. repeat split; try discriminate; try lia.
    + exists []. rewrite app_nil_r. split; [|reflexivity].
      symmetry. now apply firstn_all2.
    + rewrite length_firstn. lia.
Qed.

End FilterAlgebra.

(* ------------------------------------------------------------------ *)
(** ** The salary label                                                *)
(* ------------------------------------------------------------------ *)

Section SalaryLabels.

Import JobBoard.
Import SalaryLabel.

(** X8: [formatSalary] never runs off its end: it gives a text or throws.
    With neither bound given (missing, [0] or [NaN]) it gives the text
    "Salary not specified" whatever the currency; with a bound given it
    throws exactly when the currency is not a three-letter code. *)
Theorem formatSalary_text_or_throw (format : string -> JS.number -> string)
    (min max : option JS.number) (currency : option string) :
  formatSalary format min max currency <> App.Return None /\
  (given min = false -> given max = false ->
   formatSalary format min max currency = App.Return (Some "Salary not specified")) /\
  ((exists e, formatSalary format min max currency = App.Throw e) <->
   (given min = true \/ given max = true) /\
   Intl.wellFormedCurrencyCode
     (match currency with Some c => c | None => "USD" end) = false).
Proof.
  unfold formatSalary.
  destruct (given min) eqn:Hmin, (given max) eqn:Hmax; simpl;
    destruct (Intl.wellFormedCurrencyCode
                match currency with Some c => c | None => "USD" end) eqn:Hc;
    simpl;
    (split; [discriminate|];
     split; [intros; congruence|];
     split;
     [ intros [e He]; try discriminate He; split; auto
     | intros [[H | H] Hw]; try congruence; eexists; reflexivity ]).
Qed.

Lemma formatSalary_text_or_throw_witness :
  formatSalary Sample.format None (Some (JS.Num 0)) (Some "not a code")
  = App.Return (Some "Salary not specified").
Proof.
  apply (formatSalary_text_or_throw Sample.format None (Some (JS.Num 0))
           (Some "not a code")); reflexivity.
Defined.

(** X9: the label and the salary filter agree on what a minimum is.  A
    record that passes a non-empty salary filter shows its minimum salary
    at the head of its label (or the label throws on its currency);
    a record whose [salaryMin] is missing, [0] or [NaN], labelled "Salary
    not specified" or "Up to ...", passes no non-empty salary filter. *)
Theorem salary_label_and_filter (format : string -> JS.number -> string)
    (job : Job) (threshold : string) :
  threshold <> "" ->
  (matchesSalary threshold job = true ->
   exists m rest,
     Job.salaryMin job = Some m /\
     (Intl.wellFormedCurrencyCode (Job.salaryCurrency job) = true ->
      salaryOf format job =
      App.Return (Some (format (Job.salaryCurrency job) m ++ rest)))) /\
  (given (Job.salaryMin job) = false ->
   matchesSalary threshold job = false /\
   (salaryOf format job = App.Return (Some "Salary not specified") \/
    salaryOf format job =
      App.Return (Some ("Up to " ++ format (Job.salaryCurrency job)
                                     (arg (Job.salaryMax job)))) \/
    salaryOf format job = App.Throw "RangeError")).
Proof.
  intros Hq. apply truthy_iff in Hq.
  unfold matchesSalary, salaryOf, formatSalary. rewrite Hq. simpl. split.
  - destruct (Job.salaryMin job) as [m|]; [|discriminate].
    intros Hpass. apply andb_true_iff in Hpass as [Hm _].
    simpl. rewrite Hm. simpl.
    destruct (given (Job.salaryMax job)); simpl.
    + exists m. eexists. split; [reflexivity|]. intros ->. reflexivity.
    + exists m. eexists. split; [reflexivity|]. intros ->. reflexivity.
  - intros Hmin. split.
    + destruct (Job.salaryMin job) as [m|]; [|reflexivity].
      simpl in Hmin. now rewrite Hmin.
    + rewrite Hmin. simpl.
      destruct (given (Job.salaryMax job)); simpl; [|now left].
      destruct (Intl.wellFormedCurrencyCode (Job.salaryCurrency job)); simpl; auto.
Qed.

Lemma salary_label_and_filter_witness :
  "50000" <> "" /\
  matchesSalary "50000" Sample.job_max_only = false /\
  exists m rest,
    Job.salaryMin Sample.job_react = Some m /\
    (Intl.wellFormedCurrencyCode (Job.salaryCurrency Sample.job_react) = true ->
     salaryOf Sample.format Sample.job_react =
     App.Return
       (Some (Sample.format (Job.salaryCurrency Sample.job_react) m ++ rest))).
Proof.
  assert (Hq : "50000" <> "") by discriminate.
  split; [exact Hq|].
  destruct (salary_label_and_filter Sample.format Sample.job_max_only "50000" Hq)
    as [_ Hnone].
  destruct (salary_label_and_filter Sample.format Sample.job_react "50000" Hq)
    as [Hsome _].
  split.
  - apply Hnone. reflexivity.
  - apply Hsome. vm_compute. reflexivity.
Defined.

End SalaryLabels.

(* ------------------------------------------------------------------ *)
(** ** The modal of the saved records                                  *)
(* ------------------------------------------------------------------ *)

Section SavedModal.

Import App.
Import JobBoard.
Import SavedJobsModal.

Context {TAGS : Type}.

Lemma savedJobsWithData_cons (s : SavedJob) (savedJobs : list SavedJob)
    (jobs : list (Job.t TAGS)) :
  savedJobsWithData (s :: savedJobs) jobs =
  match find (fun j => Job.id j =? SavedJob.jobId s) jobs with
  | Some job => (s, job) :: savedJobsWithData savedJobs jobs
  | None => savedJobsWithData savedJobs jobs
  end.
Proof.
  unfold savedJobsWithData. simpl.
  now destruct (find (fun j => Job.id j =? SavedJob.jobId s) jobs).
Qed.

Lemma find_existsb {A : Type} (p : A -> bool) (l : list A) :
  existsb p l = match find p l with Some _ => true | None => false end.
Proof.
  induction l as [|x l IH]; simpl; [reflexivity|].
  now destruct (p x).
Qed.

Lemma filter_length_le {A : Type} (p : A -> bool) (l : list A) :
  List.length (filter p l) <= List.length l.
Proof.
  induction l as [|x l IH]; simpl; [lia|].
  destruct (p x); simpl; lia.
Qed.

Lemma filter_length_all {A : Type} (p : A -> bool) (l : list A) :
  List.length (filter p l) = List.length l <-> forall x, In x l -> p x = true.
Proof.
  induction l as [|x l IH]; simpl; [tauto|].
  pose proof (filter_length_le p l) as Hle.
  destruct (p x) eqn:Hp; simpl.
  - split.
    + intros H y [<- | Hy]; [exact Hp|]. apply IH; [lia | exact Hy].
    + intros H. f_equal. apply IH. auto.
  - split; [lia|]. intros H. specialize (H x (or_introl eq_refl)). congruence.
Qed.

Lemma savedJobsWithData_In (savedJobs : list SavedJob)
    (jobs : list (Job.t TAGS)) (s : SavedJob) (j : Job.t TAGS) :
  In (s, j) (savedJobsWithData savedJobs jobs) <->
  In s savedJobs /\ find (fun j' => Job.id j' =? SavedJob.jobId s) jobs = Some j.
Proof.
  induction savedJobs as [|s' l IH]; [simpl; tauto|].
  rewrite savedJobsWithData_cons.
  destruct (find (fun j0 => Job.id j0 =? SavedJob.jobId s') jobs) as [j'|] eqn:Hf;
    simpl; rewrite IH; split.
  - intros [Heq | [Hin Hfind]]; [|tauto].
    injection Heq as <- <-. auto.
  - intros [[<- | Hin] Hfind]; [left; congruence | tauto].
  - tauto.
  - intros [[<- | Hin] Hfind]; [congruence | tauto].
Qed.

Lemma savedJobsWithData_marks (savedJobs : list SavedJob)
    (jobs : list (Job.t TAGS)) :
  map fst (savedJobsWithData savedJobs jobs) =
  filter (fun s => existsb (fun j => Job.id j =? SavedJob.jobId s) jobs) savedJobs.
Proof.
  induction savedJobs as [|s l IH]; [reflexivity|].
  rewrite savedJobsWithData_cons. simpl. rewrite find_existsb.
  destruct (find (fun j => Job.id j =? SavedJob.jobId s) jobs); simpl;
    now rewrite IH.
Qed.

(** X10: the modal lists, in the order of the saved set, exactly the marks
    whose record is among the loaded ones, each with the first loaded
    record of that identifier; so it never lists more than the count in
    the header, and as many exactly when every mark has its record
    loaded. *)
Theorem savedJobsWithData_entries (savedJobs : list SavedJob)
    (jobs : list (Job.t TAGS)) :
  (forall s j,
     In (s, j) (savedJobsWithData savedJobs jobs) <->
     In s savedJobs /\
     find (fun j' => Job.id j' =? SavedJob.jobId s) jobs = Some j) /\
  map fst (savedJobsWithData savedJobs jobs) =
    filter (fun s => existsb (fun j => Job.id j =? SavedJob.jobId s) jobs)
           savedJobs /\
  List.length (savedJobsWithData savedJobs jobs) <= List.length savedJobs /\
  (List.length (savedJobsWithData savedJobs jobs) = List.length savedJobs <->
   forall s, In s savedJobs ->
     exists j, In j jobs /\ Job.id j = SavedJob.jobId s).
Proof.
  assert (Hlen : List.length (savedJobsWithData savedJobs jobs) =
                 List.length (filter
                   (fun s => existsb (fun j => Job.id j =? SavedJob.jobId s) jobs)
                   savedJobs))
    by (now rewrite <- savedJobsWithData_marks, length_map).
  split; [|split; [apply savedJobsWithData_marks | split]].
  - intros s j. apply savedJobsWithData_In.
  - rewrite Hlen. apply filter_length_le.
  - rewrite Hlen, filter_length_all. split; intros H s Hs.
    + apply H in Hs. apply existsb_exists in Hs as (j & Hj & Heq).
      exists j. split; [exact Hj | now apply String.eqb_eq].
    + destruct (H s Hs) as (j & Hj & Heq). apply existsb_exists.
      exists j. split; [exact Hj | now apply String.eqb_eq].
Qed.

(** X11: for a signed-in user the bin of a row always asks the store for a
    delete, never for a create: the delete of the first mark of the saved
    set on the record of that row. *)
Theorem unsave_click_deletes (u : User) (savedJobs : list SavedJob)
    (jobs : list (Job.t TAGS)) (entry : SavedJob * Job.t TAGS) (fresh : string) :
  In entry (savedJobsWithData savedJobs jobs) ->
  exists existingSave,
    find (fun save => SavedJob.jobId save =? SavedJob.jobId (fst entry)) savedJobs
    = Some existingSave /\
    In existingSave savedJobs /\
    onUnsaveClick (Some u) savedJobs entry fresh
    = Some (savedJobs_delete (SavedJob.id existingSave)).
Proof.
  destruct entry as [s j]. intros Hin.
  apply savedJobsWithData_In in Hin as [Hs Hfind].
  apply find_some in Hfind as [_ Hid]. apply String.eqb_eq in Hid.
  unfold onUnsaveClick, handleSaveJob. simpl. rewrite Hid.
  destruct (find (fun save => SavedJob.jobId save =? SavedJob.jobId s) savedJobs)
    as [existingSave|] eqn:Hf.
  - exists existingSave. repeat split. now apply find_some in Hf.
  - exfalso. apply (find_none _ _ Hf) in Hs.
    now rewrite String.eqb_refl in Hs.
Qed.

End SavedModal.

Lemma unsave_click_deletes_witness :
  In (Sample.mark, Sample.job_react)
     (SavedJobsModal.savedJobsWithData [Sample.mark] [Sample.job_react]) /\
  exists existingSave,
    find (fun save => SavedJob.jobId save =? "job_1") [Sample.mark]
    = Some existingSave /\
    In existingSave [Sample.mark] /\
    SavedJobsModal.onUnsaveClick (Some Sample.me) [Sample.mark]
      (Sample.mark, Sample.job_react) "save_0"
    = Some (App.savedJobs_delete (SavedJob.id existingSave)).
Proof.
  assert (Hin : In (Sample.mark, Sample.job_react)
                  (SavedJobsModal.savedJobsWithData [Sample.mark] [Sample.job_react]))
    by (left; reflexivity).
  split; [exact Hin|].
  apply (unsave_click_deletes Sample.me [Sample.mark] [Sample.job_react]
           (Sample.mark, Sample.job_react) "save_0" Hin).
Defined.

(* ------------------------------------------------------------------ *)
(** ** Toggles that run to their end                                   *)
(* ------------------------------------------------------------------ *)

Section Toggles.

Import App.
Import JobBoard.

Lemma remove_nth_snoc {A : Type} (l : list A) (x : A) :
  remove_nth (List.length l) (l ++ [x]) = l.
Proof. induction l as [|y l IH]; simpl; [reflexivity | now rewrite IH]. Qed.

Lemma find_snoc_none {A : Type} (p : A -> bool) (l : list A) (x : A) :
  find p l = None -> p x = true -> find p (l ++ [x]) = Some x.
Proof.
  induction l as [|y l IH]; simpl; intros Hf Hx; [now rewrite Hx|].
  destruct (p y); [discriminate | auto].
Qed.

Lemma filter_all_in {A : Type} (p : A -> bool) (l : list A) :
  (forall x, In x l -> p x = true) -> filter p l = l.
Proof.
  intros H; induction l as [|x l IH]; simpl; [reflexivity|].
  rewrite (H x (or_introl eq_refl)). f_equal. apply IH.
  intros y Hy. apply H. now right.
Qed.

Lemma filter_id_snoc (l : list SavedJob) (s : SavedJob) :
  ~ In (SavedJob.id s) (map SavedJob.id l) ->
  filter (fun save => negb (SavedJob.id save =? SavedJob.id s)) (l ++ [s]) = l.
Proof.
  intros Hnew. rewrite filter_app. simpl. rewrite String.eqb_refl. simpl.
  rewrite app_nil_r. apply filter_all_in.
  intros t Ht. apply negb_true_iff, String.eqb_neq. intros Heq.
  apply Hnew. rewrite <- Heq. now apply in_map.
Qed.

Lemma NoDup_map_eq {A B : Type} (f : A -> B) (l : list A) (a b : A) :
  NoDup (map f l) -> In a l -> In b l -> f a = f b -> a = b.
Proof.
  induction l as [|x l IH]; simpl; [contradiction|].
  intros Hnd Ha Hb Hf. apply NoDup_cons_iff in Hnd as [Hx Hl].
  destruct Ha as [-> | Ha], Hb as [-> | Hb]; auto.
  - exfalso. apply Hx. rewrite Hf. now apply in_map.
  - exfalso. apply Hx. rewrite <- Hf. now apply in_map.
Qed.

(** The two steps of a toggle that settles at once. *)
Lemma toggle_steps (st st1 st2 : State) (jobId fresh : string)
    (r : completion Payload) :
  step st (SaveJob jobId fresh) = Some st1 ->
  step st1 (Settled (List.length (inflight st)) r) = Some st2 ->
  exists u call sv sig,
    user st = Some u /\
    handleSaveJob (Some u) (savedJobs st) jobId fresh = Some call /\
    settle call r
      (mkState (user st) (jobs st) (savedJobs st) (inflight st ++ [call]) (signals st))
    = Some (jobs st, sv, sig) /\
    st2 = mkState (user st) (jobs st) sv (inflight st) (signals st ++ sig).
Proof.
  intros Hclick Hsettle.
  destruct (user st) as [u|] eqn:Hu.
  - destruct (step_SaveJob_signed_in st u jobId fresh Hu) as (call & Hcall & Hst1).
    rewrite Hst1 in Hclick. injection Hclick as <-.
    unfold step in Hsettle. simpl in Hsettle.
    rewrite nth_error_snoc, remove_nth_snoc in Hsettle.
    destruct (settle call r _) as [[[js sv] sig]|] eqn:Hs; [|discriminate].
    injection Hsettle as <-.
    assert (Hjs : js = jobs st).
    { pose proof Hcall as Hc. unfold handleSaveJob in Hc.
      destruct (find (fun save => SavedJob.jobId save =? jobId) (savedJobs st));
        injection Hc as <-;
        destruct r as [[| | |]|]; simpl in Hs; try discriminate;
        now injection Hs. }
    subst js. exists u, call, sv, sig.
    rewrite Hu in Hs. rewrite ?Hu. repeat split; auto.
  - unfold step in Hclick. rewrite Hu in Hclick. simpl in Hclick.
    injection Hclick as <-. unfold step in Hsettle.
    assert (Hnone : nth_error (inflight st) (List.length (inflight st)) = None)
      by (apply nth_error_None; lia).
    rewrite Hnone in Hsettle. discriminate.
Qed.

(** X12: saving a record and unsaving it again, each call answered before
    the next click, brings the saved set back to what it was, when the
    store gave the new mark an identifier no other mark of the set has. *)
Theorem save_then_unsave (st : State) (u : User) (jobId f1 f2 : string)
    (row : RawSavedJob.t) :
  user st = Some u ->
  isJobSaved (savedJobs st) jobId = false ->
  RawSavedJob.job_id row = jobId ->
  ~ In (RawSavedJob.id row) (map SavedJob.id (savedJobs st)) ->
  exists st2 st4,
    run st [SaveJob jobId f1;
            Settled (List.length (inflight st)) (Return (newSave row))] = Some st2 /\
    isJobSaved (savedJobs st2) jobId = true /\
    handleSaveJob (user st2) (savedJobs st2) jobId f2
    = Some (savedJobs_delete (RawSavedJob.id row)) /\
    run st2 [SaveJob jobId f2;
             Settled (List.length (inflight st)) (Return nothing)] = Some st4 /\
    savedJobs st4 = savedJobs st /\
    inflight st4 = inflight st.
Proof.
  intros Hu Hun Hrow Hnew.
  pose proof Hun as Hfind. apply isJobSaved_find in Hfind.
  assert (Hfind2 : find (fun save => SavedJob.jobId save =? jobId)
                     (savedJobs st ++ [formatSavedJob row])
                   = Some (formatSavedJob row)).
  { apply find_snoc_none; [exact Hfind|]. simpl. rewrite Hrow.
    apply String.eqb_refl. }
  eexists. eexists. split; [|split; [|split; [|split; [|split]]]].
  - unfold run, step, handleSaveJob. rewrite Hu, Hfind. simpl.
    rewrite nth_error_snoc. simpl. reflexivity.
  - simpl. rewrite <- Hrow. apply (isJobSaved_snoc _ (formatSavedJob row)).
  - simpl. unfold handleSaveJob. rewrite ?Hu, Hfind2. reflexivity.
  - unfold run, step, handleSaveJob. simpl. rewrite ?Hu, Hfind2. simpl.
    rewrite remove_nth_snoc, nth_error_snoc. simpl. reflexivity.
  - simpl. apply (filter_id_snoc (savedJobs st) (formatSavedJob row)). exact Hnew.
  - simpl. now rewrite !remove_nth_snoc.
Qed.

Lemma save_then_unsave_witness :
  exists st2 st4,
    run Sample.signed_in
      [SaveJob "job_1" "save_0"; Settled 0 (Return (newSave Sample.mark_row))]
    = Some st2 /\
    isJobSaved (savedJobs st2) "job_1" = true /\
    handleSaveJob (user st2) (savedJobs st2) "job_1" "save_5"
    = Some (savedJobs_delete "save_1") /\
    run st2 [SaveJob "job_1" "save_5"; Settled 0 (Return nothing)] = Some st4 /\
    savedJobs st4 = [] /\
    inflight st4 = [].
Proof.
  apply (save_then_unsave Sample.signed_in Sample.me "job_1" "save_0" "save_5"
           Sample.mark_row); try reflexivity.
  intros [].
Defined.

(** X13: a toggle on one record, answered by the store, leaves the saved
    status of every other record as it was, the marks of the saved set
    having identifiers of their own and the store answering a create with
    a mark for the record asked for. *)
Theorem toggle_leaves_other_records (st st1 st2 : State)
    (jobId other fresh : string) (r : completion Payload) :
  NoDup (map SavedJob.id (savedJobs st)) ->
  other <> jobId ->
  step st (SaveJob jobId fresh) = Some st1 ->
  step st1 (Settled (List.length (inflight st)) r) = Some st2 ->
  (forall row, r = Return (newSave row) -> RawSavedJob.job_id row = jobId) ->
  isJobSaved (savedJobs st2) other = isJobSaved (savedJobs st) other.
Proof.
  intros Hids Hother Hclick Hsettle Hecho.
  destruct (toggle_steps _ _ _ _ _ _ Hclick Hsettle)
    as (u & call & sv & sig & Hu & Hcall & Hs & ->). simpl.
  unfold handleSaveJob in Hcall.
  destruct (find (fun save => SavedJob.jobId save =? jobId) (savedJobs st))
    as [existingSave|] eqn:Hfind; injection Hcall as <-.
  - destruct r as [pl|e]; simpl in Hs; injection Hs as <- _; [|reflexivity].
    apply find_some in Hfind as [Hex Hjob]. apply String.eqb_eq in Hjob.
    apply eq_true_iff_eq. rewrite !isJobSaved_iff. split.
    + intros (s & Hs & Hj). apply filter_In in Hs as [Hs _]. now exists s.
    + intros (s & Hs & Hj). exists s. split; [|exact Hj].
      apply filter_In. split; [exact Hs|].
      apply negb_true_iff, String.eqb_neq. intros Hid.
      assert (s = existingSave) by (apply (NoDup_map_eq SavedJob.id _ _ _ Hids); auto).
      subst s. congruence.
  - destruct r as [[| | |row]|e]; simpl in Hs; try discriminate;
      injection Hs as <- _; [|reflexivity].
    unfold isJobSaved. rewrite existsb_app. simpl.
    rewrite (Hecho row eq_refl), orb_false_r.
    assert (Hne : (jobId =? other) = false) by (apply String.eqb_neq; congruence).
    now rewrite Hne, orb_false_r.
Qed.

Lemma toggle_leaves_other_records_witness :
  isJobSaved
    [Sample.mark; formatSavedJob (RawSavedJob.mk "save_7" "job_7" "user_1" "")]
    "job_1"
  = isJobSaved [Sample.mark] "job_1".
Proof.
  apply (toggle_leaves_other_records Sample.signed_in_saved
           (mkState (Some Sample.me) [] [Sample.mark]
              [savedJobs_create "save_0" "job_7" "user_1"] [])
           (mkState (Some Sample.me) [] 
              [Sample.mark; formatSavedJob (RawSavedJob.mk "save_7" "job_7" "user_1" "")]
              [] [toast "Job saved" "Job added to saved jobs" None])
           "job_7" "job_1" "save_0"
           (Return (newSave (RawSavedJob.mk "save_7" "job_7" "user_1" ""))));
    try reflexivity.
  - repeat constructor; auto.
  - discriminate.
  - intros row H. injection H as <-. reflexivity.
Defined.

(** X14: when no two marks of the saved set are on the same record,
    unsaving a saved record, the store answering the delete, leaves it not
    saved, and no mark is added. *)
Theorem unsave_clears (st : State) (u : User) (jobId fresh : string) :
  user st = Some u ->
  NoDup (map SavedJob.jobId (savedJobs st)) ->
  isJobSaved (savedJobs st) jobId = true ->
  exists st2,
    run st [SaveJob jobId fresh;
            Settled (List.length (inflight st)) (Return nothing)] = Some st2 /\
    isJobSaved (savedJobs st2) jobId = false /\
    (forall s, In s (savedJobs st2) -> In s (savedJobs st)) /\
    List.length (savedJobs st2) < List.length (savedJobs st).
Proof.
  intros Hu Hnd Hsaved.
  destruct (find (fun save => SavedJob.jobId save =? jobId) (savedJobs st))
    as [existingSave|] eqn:Hfind;
    [|apply isJobSaved_find in Hfind; congruence].
  eexists. split; [|split; [|split]].
  - unfold run, step, handleSaveJob. rewrite Hu, Hfind. simpl.
    rewrite nth_error_snoc. simpl. reflexivity.
  - simpl. apply find_some in Hfind as [Hex Hjob]. apply String.eqb_eq in Hjob.
    apply not_true_is_false. intros H. apply isJobSaved_iff in H as (s & Hs & Hj).
    apply filter_In in Hs as [Hs Hid].
    assert (s = existingSave)
      by (apply (NoDup_map_eq SavedJob.jobId _ _ _ Hnd); auto; congruence).
    subst s. now rewrite String.eqb_refl in Hid.
  - simpl. intros s Hs. now apply filter_In in Hs.
  - simpl. apply find_some in Hfind as [Hex _].
    set (p := fun save => negb (SavedJob.id save =? SavedJob.id existingSave)).
    assert (Hle := filter_length_le p (savedJobs st)).
    assert (Hne : List.length (filter p (savedJobs st)) <> List.length (savedJobs st)).
    { intros Heq.
      pose proof (proj1 (filter_length_all p (savedJobs st)) Heq existingSave Hex)
        as Hp.
      unfold p in Hp. now rewrite String.eqb_refl in Hp. }
    apply Nat.le_neq. split; [exact Hle | exact Hne].
Qed.

Lemma unsave_clears_witness :
  exists st2,
    run Sample.signed_in_saved
      [SaveJob "job_1" "save_0"; Settled 0 (Return nothing)] = Some st2 /\
    isJobSaved (savedJobs st2) "job_1" = false /\
    (forall s, In s (savedJobs st2) -> In s [Sample.mark]) /\
    List.length (savedJobs st2) < 1.
Proof.
  apply (unsave_clears Sample.signed_in_saved Sample.me "job_1" "save_0");
    try reflexivity.
  repeat constructor; auto.
Defined.

(** With two marks on one record, as two quick clicks leave them, one
    unsave is not enough: the record still counts as saved. *)
Example unsave_once_of_two :
  exists st,
    run (mkState (Some Sample.me) []
           [formatSavedJob Sample.mark_row; formatSavedJob Sample.mark_row_again]
           [] [])
      [SaveJob "job_1" "save_0"; Settled 0 (Return nothing)] = Some st /\
    savedJobs st = [formatSavedJob Sample.mark_row_again] /\
    isJobSaved (savedJobs st) "job_1" = true.
Proof. eexists. repeat split. Qed.

(** *** What a load leaves in the records *)

Lemma formatJobs_rows (rows : list RawJob.t) (js : list LoadedJob) :
  formatJobs rows = Return js ->
  map Job.id js = map RawJob.id rows /\
  Forall (fun j => Job.salaryCurrency j <> "") js.
Proof.
  revert js; induction rows as [|row rows IH]; simpl; intros js H.
  - injection H as <-. split; [reflexivity | constructor].
  - unfold formatJob in H.
    destruct (parseTags (RawJob.tags row)) as [tags|e]; [|discriminate].
    destruct (formatJobs rows) as [js'|e]; [|discriminate].
    injection H as <-. destruct (IH js' eq_refl) as [Hids Hcur].
    simpl. split; [now rewrite Hids|].
    constructor; [|exact Hcur]. simpl. unfold currencyOrUSD.
    destruct (RawJob.salary_currency row) as [c|]; [|discriminate].
    destruct (JS.truthy c) eqn:Hc; [now apply truthy_iff | discriminate].
Qed.

(** X15: a load of the records is all or nothing.  Either it fails, the
    records stay as they were and the failure is notified; or every row of
    the store becomes a record, same identifiers in the same order, each
    with a non-empty currency, and nothing is notified. *)
Theorem loadJobs_all_or_nothing (r : completion (list RawJob.t))
    (prev : list LoadedJob) :
  (exists e, loadJobs r prev = (prev, loadFailed e)) \/
  (exists rows js,
     r = Return rows /\
     loadJobs r prev = (js, []) /\
     map Job.id js = map RawJob.id rows /\
     Forall (fun j => Job.salaryCurrency j <> "") js).
Proof.
  destruct r as [rows|e]; simpl; [|left; now exists e].
  destruct (formatJobs rows) as [js|e] eqn:Hf; [|left; now exists e].
  right. exists rows, js. destruct (formatJobs_rows rows js Hf). auto.
Qed.

End Toggles.

(* ------------------------------------------------------------------ *)
(** ** The form of a new record                                        *)
(* ------------------------------------------------------------------ *)

Section PostForm.

Import PostJobModal.

Lemma trimStart_head (s : string) (c : ascii) (r : string) :
  JS.trimStart s = String c r -> JS.isWhiteSpace c = false.
Proof.
  induction s as [|d s IH]; simpl; [discriminate|].
  destruct (JS.isWhiteSpace d) eqn:Hd; [exact IH|].
  intros H. injection H as <- _. exact Hd.
Qed.

Lemma trimStart_fixed (c : ascii) (r : string) :
  JS.isWhiteSpace c = false -> JS.trimStart (String c r) = String c r.
Proof. intros H. simpl. now rewrite H. Qed.

Lemma trimEnd_head (c : ascii) (r : string) :
  JS.isWhiteSpace c = false -> exists r', JS.trimEnd (String c r) = String c r'.
Proof.
  intros H. simpl. destruct (JS.trimEnd r); [rewrite H|]; eexists; reflexivity.
Qed.

Lemma trimEnd_cons (c : ascii) (s : string) :
  JS.trimEnd (String c s) =
  match JS.trimEnd s with
  | EmptyString => if JS.isWhiteSpace c then EmptyString else String c EmptyString
  | String d r => String c (String d r)
  end.
Proof. reflexivity. Qed.

Lemma trimEnd_idem (s : string) : JS.trimEnd (JS.trimEnd s) = JS.trimEnd s.
Proof.
  induction s as [|c s IH]; [reflexivity|].
  rewrite trimEnd_cons.
  destruct (JS.trimEnd s) as [|d r] eqn:Hs.
  - destruct (JS.isWhiteSpace c) eqn:Hc; [reflexivity|].
    rewrite trimEnd_cons. simpl. now rewrite Hc.
  - rewrite trimEnd_cons, IH. reflexivity.
Qed.

(** Trimming what is trimmed changes nothing. *)
Lemma trim_idem (s : string) : JS.trim (JS.trim s) = JS.trim s.
Proof.
  unfold JS.trim.
  destruct (JS.trimStart s) as [|c r] eqn:Hs; [reflexivity|].
  pose proof (trimStart_head s c r Hs) as Hc.
  destruct (trimEnd_head c r Hc) as [r' Hr]. rewrite Hr.
  rewrite (trimStart_fixed c r' Hc). rewrite <- Hr. apply trimEnd_idem.
Qed.

(** The shape the tags of the form are in. *)
Lemma addTag_tags (st : State) :
  tags (addTag st) = tags st \/
  (tags (addTag st) = (tags st ++ [JS.trim (tagInput st)])%list /\
   JS.trim (tagInput st) <> "" /\
   ~ In (JS.trim (tagInput st)) (tags st)).
Proof.
  unfold addTag.
  destruct (JS.truthy (JS.trim (tagInput st))) eqn:Ht; simpl; [|now left].
  destruct (JS.arrayIncludes (tags st) (JS.trim (tagInput st))) eqn:Hi; simpl;
    [now left|].
  right. split; [reflexivity|]. split; [now apply truthy_iff|].
  intros Hin. apply arrayIncludes_iff in Hin. congruence.
Qed.

(** X16: whatever the user types, adds and removes, the tags of the form
    stay without duplicates, and each of them is non-empty and has no
    white space at either end. *)
Theorem tags_stay_tidy (st : State) (es : list TagEvent) :
  NoDup (tags st) ->
  Forall (fun t => t <> "" /\ JS.trim t = t) (tags st) ->
  NoDup (tags (fold_left onTagEvent es st)) /\
  Forall (fun t => t <> "" /\ JS.trim t = t) (tags (fold_left onTagEvent es st)).
Proof.
  revert st; induction es as [|e es IH]; intros st Hnd Hall; simpl; [auto|].
  assert (Hadd : NoDup (tags (addTag st)) /\
                 Forall (fun t => t <> "" /\ JS.trim t = t) (tags (addTag st))).
  { destruct (addTag_tags st) as [-> | (-> & Hne & Hnew)]; [auto|]. split.
    - apply NoDup_app; [exact Hnd | repeat constructor; auto |].
      intros a Ha [<- | []]. contradiction.
    - apply Forall_app. split; [exact Hall|].
      repeat constructor; [exact Hne | apply trim_idem]. }
  apply IH; destruct e as [v| |key|tag]; simpl; try tauto.
  - unfold handleKeyPress. destruct (key =? "Enter"); tauto.
  - now apply NoDup_filter.
  - unfold handleKeyPress. destruct (key =? "Enter"); tauto.
  - apply Forall_forall. intros t Ht. apply filter_In in Ht as [Ht _].
    rewrite Forall_forall in Hall. now apply Hall.
Qed.

Lemma tags_stay_tidy_witness :
  NoDup (tags (fold_left onTagEvent
                 [TypeTag " React "; ClickAdd; TypeTag "React"; KeyPress "Enter"]
                 initial)) /\
  Forall (fun t => t <> "" /\ JS.trim t = t)
    (tags (fold_left onTagEvent
             [TypeTag " React "; ClickAdd; TypeTag "React"; KeyPress "Enter"]
             initial)).
Proof.
  apply (tags_stay_tidy initial
           [TypeTag " React "; ClickAdd; TypeTag "React"; KeyPress "Enter"]);
    constructor.
Defined.

(** X17: adding a tag takes the trimmed input: when that is empty or
    already among the tags nothing changes, not even the input field;
    otherwise the trimmed input goes to the end of the tags and the input
    field is emptied, and removing that tag again gives the tags back. *)
Theorem addTag_then_removeTag (st : State) :
  (JS.trim (tagInput st) = "" \/ In (JS.trim (tagInput st)) (tags st) ->
   addTag st = st) /\
  (JS.trim (tagInput st) <> "" -> ~ In (JS.trim (tagInput st)) (tags st) ->
   tags (addTag st) = (tags st ++ [JS.trim (tagInput st)])%list /\
   tagInput (addTag st) = "" /\
   tags (removeTag (JS.trim (tagInput st)) (addTag st)) = tags st).
Proof.
  unfold addTag. split.
  - intros [He | Hin].
    + rewrite He. reflexivity.
    + apply arrayIncludes_iff in Hin. rewrite Hin.
      now rewrite andb_false_r.
  - intros Hne Hnew. apply truthy_iff in Hne. rewrite Hne.
    destruct (JS.arrayIncludes (tags st) (JS.trim (tagInput st))) eqn:Hi;
      [now apply arrayIncludes_iff in Hi|].
    simpl. repeat split.
    rewrite filter_app. simpl. rewrite String.eqb_refl. simpl.
    rewrite app_nil_r. apply filter_all_in.
    intros t Ht. apply negb_true_iff, String.eqb_neq. congruence.
Qed.

Lemma addTag_then_removeTag_witness :
  tags (addTag (mkState false emptyForm ["Rocq"] " React ")) = ["Rocq"; "React"] /\
  tagInput (addTag (mkState false emptyForm ["Rocq"] " React ")) = "" /\
  tags (removeTag "React" (addTag (mkState false emptyForm ["Rocq"] " React ")))
  = ["Rocq"].
Proof.
  apply (addTag_then_removeTag (mkState false emptyForm ["Rocq"] " React ")).
  - discriminate.
  - intros [H | []]. discriminate H.
Defined.

Lemma validate_None (f : FormData) :
  validate f = None ->
  title f <> "" /\ company f <> "" /\ location f <> "" /\
  description f <> "" /\ employmentType f <> "" /\ experienceLevel f <> "" /\
  match applicationType f with
  | Job.email => applicationEmail f <> ""
  | Job.link => applicationLink f <> ""
  end.
Proof.
  unfold validate.
  destruct (JS.truthy (title f)) eqn:H1, (JS.truthy (company f)) eqn:H2,
    (JS.truthy (location f)) eqn:H3, (JS.truthy (description f)) eqn:H4,
    (JS.truthy (employmentType f)) eqn:H5, (JS.truthy (experienceLevel f)) eqn:H6;
    simpl; try discriminate.
  apply truthy_iff in H1, H2, H3, H4, H5, H6.
  destruct (applicationType f).
  - destruct (JS.truthy (applicationEmail f)) eqn:H7; simpl; [|discriminate].
    apply truthy_iff in H7. tauto.
  - destruct (JS.truthy (applicationLink f)) eqn:H7; simpl; [|discriminate].
    apply truthy_iff in H7. tauto.
Qed.

(** What is sent is the posting of a form that passed the checks. *)
Lemma sent_posting (st : State) (fresh : string)
    (me : App.completion App.User) (created : App.completion unit) (p : Posting) :
  sent (handleSubmit st fresh me created) = Some p ->
  validate (formData st) = None /\
  exists user, p = posting (formData st) (tags st) fresh user.
Proof.
  unfold handleSubmit.
  destruct (validate (formData st)) eqn:Hv; [discriminate|].
  destruct me as [user|e]; [|discriminate].
  destruct created; simpl; intros H; injection H as <-; eauto.
Qed.

(** X18: whatever goes to the store from the form has its six required
    fields filled in and carries exactly one way to apply, the one of its
    application type, and that one is not empty; its tags are the tags of
    the form as JSON. *)
Theorem handleSubmit_sends_complete (st : State) (fresh : string)
    (me : App.completion App.User) (created : App.completion unit) (p : Posting) :
  sent (handleSubmit st fresh me created) = Some p ->
  p_title p <> "" /\ p_company p <> "" /\ p_location p <> "" /\
  p_description p <> "" /\ p_employmentType p <> "" /\
  p_experienceLevel p <> "" /\
  match p_applicationType p with
  | Job.email =>
      (exists e, p_applicationEmail p = Some e /\ e <> "") /\
      p_applicationLink p = None
  | Job.link =>
      (exists l, p_applicationLink p = Some l /\ l <> "") /\
      p_applicationEmail p = None
  end /\
  p_tags p = JSON.stringify (tags st) /\ p_id p = fresh.
Proof.
  unfold handleSubmit.
  destruct (validate (formData st)) eqn:Hv; [discriminate|].
  apply validate_None in Hv as (H1 & H2 & H3 & H4 & H5 & H6 & H7).
  assert (Hp : forall user, p = posting (formData st) (tags st) fresh user ->
            p_title p <> "" /\ p_company p <> "" /\ p_location p <> "" /\
            p_description p <> "" /\ p_employmentType p <> "" /\
            p_experienceLevel p <> "" /\
            match p_applicationType p with
            | Job.email =>
                (exists e, p_applicationEmail p = Some e /\ e <> "") /\
                p_applicationLink p = None
            | Job.link =>
                (exists l, p_applicationLink p = Some l /\ l <> "") /\
                p_applicationEmail p = None
            end /\
            p_tags p = JSON.stringify (tags st) /\ p_id p = fresh).
  { intros user ->. simpl. repeat (split; [assumption|]).
    destruct (applicationType (formData st)); repeat split; eauto. }
  destruct me as [user|e]; [|discriminate].
  destruct created; simpl; intros H; injection H as <-; now apply (Hp user).
Qed.

Lemma handleSubmit_sends_complete_witness :
  exists p,
    sent (handleSubmit
            (mkState false
               (mkForm "Prover" "Acme" "Remote" "0" "" "USD" "Prove it" "" ""
                  "full-time" "senior" Job.link "" "https://acme.test/apply")
               ["Rocq"] "")
            "job_9" (App.Return Sample.me) (App.Return tt)) = Some p /\
    p_title p <> "" /\ p_applicationEmail p = None /\
    p_salaryMin p = Some (JS.Num 0).
Proof.
  eexists. split; [reflexivity|].
  destruct (handleSubmit_sends_complete
              (mkState false
                 (mkForm "Prover" "Acme" "Remote" "0" "" "USD" "Prove it" "" ""
                    "full-time" "senior" Job.link "" "https://acme.test/apply")
                 ["Rocq"] "")
              "job_9" (App.Return Sample.me) (App.Return tt) _ eq_refl)
    as (H1 & _ & _ & _ & _ & _ & H7 & _).
  split; [exact H1|]. split; [apply H7 | reflexivity].
Defined.

(** X19: the form tells its parent that a record was posted exactly when
    the checks passed and both the call for the user and the create came
    back; then the form is emptied.  In every other case the fields, the
    tags and the tag input are kept as the user left them and the failure
    is notified.  After a run that passed the checks the form is not
    loading any more. *)
Theorem handleSubmit_outcome (st : State) (fresh : string)
    (me : App.completion App.User) (created : App.completion unit) :
  (onJobPosted (handleSubmit st fresh me created) = true <->
   validate (formData st) = None /\
   (exists u, me = App.Return u) /\ (exists x, created = App.Return x)) /\
  (onJobPosted (handleSubmit st fresh me created) = true ->
   after (handleSubmit st fresh me created) = initial) /\
  (onJobPosted (handleSubmit st fresh me created) = false ->
   formData (after (handleSubmit st fresh me created)) = formData st /\
   tags (after (handleSubmit st fresh me created)) = tags st /\
   tagInput (after (handleSubmit st fresh me created)) = tagInput st /\
   signalled (handleSubmit st fresh me created) <> []) /\
  (validate (formData st) = None ->
   loading (after (handleSubmit st fresh me created)) = false).
Proof.
  unfold handleSubmit.
  destruct (validate (formData st)) as [t|]; simpl.
  - repeat split; try discriminate.
    intros (H & _). discriminate H.
  - destruct me as [u|e]; simpl.
    + destruct created as [x|e]; simpl; repeat split; try discriminate; eauto.
      intros (_ & _ & [x H]). discriminate H.
    + repeat split; try discriminate.
      intros (_ & [u H] & _). discriminate H.
Qed.

End PostForm.

(* ------------------------------------------------------------------ *)
(** ** Applying to a record                                            *)
(* ------------------------------------------------------------------ *)

Section Applying.

Import JobDetailsModal.

Context {TAGS : Type}.

(** X20: the button to apply does nothing exactly when the contact of the
    application type of the record is missing or empty; it never falls
    back on the contact of the other type. *)
Theorem handleApply_stays_iff (job : Job.t TAGS) :
  handleApply job = stay <->
  match Job.applicationType job with
  | Job.email => present (Job.applicationEmail job) = None
  | Job.link => present (Job.applicationLink job) = None
  end.
Proof.
  unfold handleApply.
  destruct (Job.applicationType job), (present (Job.applicationEmail job)),
    (present (Job.applicationLink job)); split; intros H;
    try reflexivity; discriminate H.
Qed.

(** X21: a record that carries the application type and the contacts of a
    posting sent from the form can always be applied to: an e-mail record
    opens a message to its address, a link record opens its link in a new
    tab. *)
Theorem posted_record_can_be_applied_to (st : PostJobModal.State) (fresh : string)
    (me : App.completion App.User) (created : App.completion unit)
    (p : PostJobModal.Posting) (job : Job.t TAGS) :
  PostJobModal.sent (PostJobModal.handleSubmit st fresh me created) = Some p ->
  Job.applicationType job = PostJobModal.p_applicationType p ->
  Job.applicationEmail job = PostJobModal.p_applicationEmail p ->
  Job.applicationLink job = PostJobModal.p_applicationLink p ->
  handleApply job <> stay /\
  match Job.applicationType job with
  | Job.email =>
      exists e, Job.applicationEmail job = Some e /\
                handleApply job =
                location_href ("mailto:" ++ e ++ "?subject=Application for "
                               ++ Job.title job ++ " at " ++ Job.company job)
  | Job.link =>
      exists l, Job.applicationLink job = Some l /\
                handleApply job = window_open l "_blank"
  end.
Proof.
  intros Hsent Ht He Hl.
  apply sent_posting in Hsent as (Hv & user & ->).
  apply validate_None in Hv as (_ & _ & _ & _ & _ & _ & Hc).
  unfold handleApply. rewrite Ht, He, Hl. simpl.
  destruct (PostJobModal.applicationType (PostJobModal.formData st)); simpl;
    apply truthy_iff in Hc; rewrite Hc;
    (split; [discriminate | eexists; split; reflexivity]).
Qed.

End Applying.

Lemma posted_record_can_be_applied_to_witness :
  JobDetailsModal.handleApply Sample.job_by_link <> JobDetailsModal.stay /\
  exists l, Job.applicationLink Sample.job_by_link = Some l /\
            JobDetailsModal.handleApply Sample.job_by_link
            = JobDetailsModal.window_open l "_blank".
Proof.
  apply (posted_record_can_be_applied_to Sample.form_filled "job_9"
           (App.Return Sample.me) (App.Return tt)
           (PostJobModal.posting (PostJobModal.formData Sample.form_filled)
              (PostJobModal.tags Sample.form_filled) "job_9" Sample.me)
           Sample.job_by_link); reflexivity.
Defined.

Lemma handleSubmit_outcome_witness :
  PostJobModal.after
    (PostJobModal.handleSubmit Sample.form_filled "job_9"
       (App.Return Sample.me) (App.Return tt)) = PostJobModal.initial /\
  PostJobModal.tags
    (PostJobModal.after
       (PostJobModal.handleSubmit Sample.form_filled "job_9"
          (App.Return Sample.me) (App.Throw "offline"))) = ["Rocq"].
Proof.
  destruct (handleSubmit_outcome Sample.form_filled "job_9"
              (App.Return Sample.me) (App.Return tt)) as (_ & Hposted & _ & _).
  destruct (handleSubmit_outcome Sample.form_filled "job_9"
              (App.Return Sample.me) (App.Throw "offline")) as (_ & _ & Hkept & _).
  split.
  - apply Hposted. reflexivity.
  - apply Hkept. reflexivity.
Defined.

(* ------------------------------------------------------------------ *)
(** ** Tags written by the form and read by the load                   *)
(* ------------------------------------------------------------------ *)

Section TagsRoundTrip.

Import JSON.

Lemma option_map_app_nil {A : Type} (o : option (list A)) :
  option_map (app []) o = o.
Proof. now destruct o. Qed.

(** The lexer reads an escaped code unit back as that code unit. *)
Lemma lex_quoteChar (c : ascii) (acc : list N) (rest : string) :
  lex (InString acc) (quoteChar c ++ rest) =
  lex (InString (acc ++ [N_of_ascii c])) rest.
Proof.
  destruct c as [[] [] [] [] [] [] [] []];
    cbn -[lex app]; cbn [lex String.append]; cbn -[lex];
    rewrite ?option_map_app_nil; reflexivity.
Qed.

Lemma units_cons (c : ascii) (s : string) :
  units (String c s) = N_of_ascii c :: units s.
Proof. reflexivity. Qed.

(** Inside the quotes: the escaped body, then the closing quote. *)
Lemma lex_quoteBody (s : string) (acc : list N) (rest : string) :
  lex (InString acc) (quoteBody s ++ String quote rest) =
  option_map (cons (TString (acc ++ units s))) (lex Plain rest).
Proof.
  revert acc; induction s as [|c s IH]; intros acc.
  - change (quoteBody "" ++ String quote rest) with (String quote rest).
    change (units "") with (@nil N). rewrite app_nil_r.
    cbn [lex step]. change (Ascii.eqb quote quote) with true. cbn iota.
    now destruct (lex Plain rest).
  - change (quoteBody (String c s)) with (quoteChar c ++ quoteBody s).
    rewrite append_assoc, lex_quoteChar, IH, units_cons.
    now rewrite <- app_assoc.
Qed.

Lemma lex_quoteJSONString (s rest : string) :
  lex Plain (quoteJSONString s ++ rest) =
  option_map (cons (TString (units s))) (lex Plain rest).
Proof.
  unfold quoteJSONString.
  change (String quote (quoteBody s ++ String quote "") ++ rest)
    with (String quote ((quoteBody s ++ String quote "") ++ rest)).
  rewrite append_assoc.
  change (String quote "" ++ rest) with (String quote rest).
  cbn [lex step]. change (stepPlain quote) with (Some (InString [], @nil token)).
  cbn iota. rewrite option_map_app_nil. apply (lex_quoteBody s [] rest).
Qed.

Lemma lex_elements (t : string) (ts : list string) :
  lex Plain (String.concat "," (map quoteJSONString (t :: ts)) ++ "]") =
  Some (TString (units t) :: flat_map (fun t0 => [Comma; TString (units t0)]) ts ++ [RBracket]).
Proof.
  revert t; induction ts as [|t' ts IH]; intros t.
  - change (String.concat "," (map quoteJSONString [t])) with (quoteJSONString t).
    rewrite lex_quoteJSONString. reflexivity.
  - change (String.concat "," (map quoteJSONString (t :: t' :: ts)))
      with (quoteJSONString t ++ "," ++
            String.concat "," (map quoteJSONString (t' :: ts))).
    rewrite append_assoc, lex_quoteJSONString.
    change (("," ++ String.concat "," (map quoteJSONString (t' :: ts))) ++ "]")
      with (String "," (String.concat "," (map quoteJSONString (t' :: ts)) ++ "]")).
    cbn [lex step]. change (stepPlain ",") with (Some (Plain, [Comma])).
    cbn iota. rewrite IH. reflexivity.
Qed.

Lemma feedAll_elements (ts : list string) (items : list value) :
  feedAll (PAfterItem items []) (flat_map (fun t0 => [Comma; TString (units t0)]) ts ++ [RBracket]) =
  Some (PDone (Array (items ++ map (fun t => Str (units t)) ts))).
Proof.
  revert items; induction ts as [|t ts IH]; intros items; simpl.
  - now rewrite app_nil_r.
  - rewrite IH. now rewrite <- app_assoc.
Qed.

Lemma parse_stringify_tags (tags : list string) :
  parse (stringify tags) = Some (Array (map (fun t => Str (units t)) tags)).
Proof.
  unfold parse, stringify. destruct tags as [|t ts].
  - reflexivity.
  - change ("[" ++ String.concat "," (map quoteJSONString (t :: ts)) ++ "]")
      with (String "[" (String.concat "," (map quoteJSONString (t :: ts)) ++ "]")).
    cbn [lex step]. change (stepPlain "[") with (Some (Plain, [LBracket])).
    cbn iota. rewrite lex_elements.
    cbn [option_map app feedAll feed startValue deliver].
    rewrite (feedAll_elements ts [Str (units t)]). reflexivity.
Qed.

(** X22: what [JSON.stringify] writes for the tags of the form,
    [JSON.parse] reads back as the array of those tags, in order, code
    unit for code unit, whatever characters the tags hold. *)
Theorem parse_stringify (tags : list string) :
  parse (stringify tags) = Some (Array (map (fun t => Str (units t)) tags)).
Proof. apply parse_stringify_tags. Qed.

Lemma stringify_truthy (tags : list string) : JS.truthy (stringify tags) = true.
Proof. reflexivity. Qed.

(** X23: the tags a posting carries are read by the load without an
    error; a load whose rows all have their tags missing or written by
    the form never fails. *)
Theorem posted_tags_load (tags : list string) (rows : list RawJob.t)
    (prev : list App.LoadedJob) :
  App.parseTags (Some (stringify tags)) =
    App.Return (Array (map (fun t => Str (units t)) tags)) /\
  (Forall (fun row => RawJob.tags row = None \/
                      exists ts, RawJob.tags row = Some (stringify ts)) rows ->
   exists js, App.loadJobs (App.Return rows) prev = (js, []) /\
              List.length js = List.length rows).
Proof.
  assert (Hparse : forall ts, App.parseTags (Some (stringify ts)) =
                     App.Return (Array (map (fun t => Str (units t)) ts))).
  { intros ts. unfold App.parseTags.
    now rewrite stringify_truthy, parse_stringify_tags. }
  split; [apply Hparse|].
  intros Hrows.
  assert (Hfmt : exists js, App.formatJobs rows = App.Return js /\
                            List.length js = List.length rows).
  { induction Hrows as [|row rows Hrow _ IH]; [now exists []|].
    destruct IH as (js & Hjs & Hlen).
    assert (Htags : exists v, App.parseTags (RawJob.tags row) = App.Return v).
    { destruct Hrow as [-> | [ts ->]]; [now eexists|].
      rewrite Hparse. now eexists. }
    destruct Htags as [v Hv]. simpl. unfold App.formatJob.
    rewrite Hv, Hjs. eexists. split; [reflexivity|]. simpl. now rewrite Hlen. }
  destruct Hfmt as (js & Hjs & Hlen). exists js.
  unfold App.loadJobs. rewrite Hjs. auto.
Qed.

Lemma posted_tags_load_witness :
  exists js,
    App.loadJobs
      (App.Return [Sample.row "job_1" None;
                   Sample.row "job_2" (Some (stringify ["C++"; "back\slash"]))])
      [] = (js, []) /\
    List.length js = 2.
Proof.
  destruct (posted_tags_load [] 
              [Sample.row "job_1" None;
               Sample.row "job_2" (Some (stringify ["C++"; "back\slash"]))] [])
    as [_ H].
  apply H. constructor; [now left|]. constructor; [|constructor].
  right. now exists ["C++"; "back\slash"].
Defined.

End TagsRoundTrip.

Lemma card_tags_all_accounted_witness :
  JobBoard.moreTags Sample.job_react = None /\
  exists rest,
    Job.tags Sample.job_react = (JobBoard.shownTags Sample.job_react ++ rest)%list /\
    List.length rest = 0.
Proof.
  destruct (card_tags_all_accounted Sample.job_react) as (Hrest & _ & Hnone & _).
  assert (H : JobBoard.moreTags Sample.job_react = None)
    by (apply Hnone; simpl; lia).
  split; [exact H|].
  destruct Hrest as (rest & Htags & Hlen). rewrite H in Hlen. now exists rest.
Defined.

Lemma savedJobsWithData_entries_witness :
  List.length
    (SavedJobsModal.savedJobsWithData [Sample.mark; Sample.mark_of_other]
       [Sample.job_react]) = 2 /\
  List.length
    (SavedJobsModal.savedJobsWithData
       [Sample.mark; SavedJob.mk "save_3" "job_gone" "user_1" ""]
       [Sample.job_react]) <= 2.
Proof.
  destruct (savedJobsWithData_entries [Sample.mark; Sample.mark_of_other]
              [Sample.job_react]) as (_ & _ & _ & Hall).
  destruct (savedJobsWithData_entries
              [Sample.mark; SavedJob.mk "save_3" "job_gone" "user_1" ""]
              [Sample.job_react]) as (_ & _ & Hle & _).
  split; [|exact Hle].
  apply Hall. intros s [<- | [<- | []]]; exists Sample.job_react;
    split; try (now left); reflexivity.
Defined.
